(** * CompareFunction: the parallel table comparison of [compare_parallel.py]

    A shallow embedding of [src/CompareFunction/compare_parallel.py] and the
    properties of its comparison engine.

    Conventions of the embedding.
    - A Python [str] is a sequence of Unicode code points: [list N].
    - A Python [int] is a [Z].
    - A [dict] that is only read through [get] is a stdpp [gmap]; a [dict]
      whose insertion order is observable (the per-row [mismatch] dict,
      which is serialised) is an association list.
    - A raised exception is the [Raise] case of [result]; the code only
      raises [KeyError].
    - Logging ([print]), timing and the blob store are not part of the
      computation and are left out. *)

From Stdlib Require Import ZArith NArith List Lia Permutation String Ascii.
From Stdlib Require DecimalZ.
From stdpp Require Import base decidable option list gmap.

Local Open Scope Z_scope.

(** ** Python strings *)

Abbreviation pystr := (list N).

(** An ASCII literal as a Python string. *)
Definition py (s : string) : pystr :=
  map N_of_ascii (list_ascii_of_string s).

Arguments py s%_string.

Module PyStr.

(** [str.isspace] on one character, the set [str.strip()] removes:
    U+0009..U+000D, U+001C..U+0020, U+0085, U+00A0, U+1680,
    U+2000..U+200A, U+2028, U+2029, U+202F, U+205F, U+3000. *)
Definition isspace (c : N) : bool :=
  (((9 <=? c) && (c <=? 13)) || ((28 <=? c) && (c <=? 32))
   || (c =? 133) || (c =? 160) || (c =? 5760)
   || ((8192 <=? c) && (c <=? 8202))
   || (c =? 8232) || (c =? 8233) || (c =? 8239) || (c =? 8287)
   || (c =? 12288))%N.

(** [s.lstrip()] *)
Fixpoint lstrip (s : pystr) : pystr :=
  match s with
  | [] => []
  | c :: s' => if isspace c then lstrip s' else s
  end.

(** [s.rstrip()] *)
Definition rstrip (s : pystr) : pystr := reverse (lstrip (reverse s)).

(** [s.strip()] *)
Definition strip (s : pystr) : pystr := rstrip (lstrip s).

(** [s.replace(c, "")] for a one-character pattern [c]. *)
Definition remove (c : N) (s : pystr) : pystr :=
  filter (λ x, x ≠ c) s.

(** [s.endswith(suffix)] *)
Definition endswith (s suffix : pystr) : bool :=
  bool_decide (drop (length s - length suffix) s = suffix
               ∧ (length suffix ≤ length s)%nat).

(** Decimal digits of [str(n)] for an [int]. *)
Fixpoint digits (d : Decimal.uint) : pystr :=
  match d with
  | Decimal.Nil => []
  | Decimal.D0 d => 48%N :: digits d
  | Decimal.D1 d => 49%N :: digits d
  | Decimal.D2 d => 50%N :: digits d
  | Decimal.D3 d => 51%N :: digits d
  | Decimal.D4 d => 52%N :: digits d
  | Decimal.D5 d => 53%N :: digits d
  | Decimal.D6 d => 54%N :: digits d
  | Decimal.D7 d => 55%N :: digits d
  | Decimal.D8 d => 56%N :: digits d
  | Decimal.D9 d => 57%N :: digits d
  end.

(** [str(n)] for an [int] *)
Definition of_Z (n : Z) : pystr :=
  match Z.to_int n with
  | Decimal.Pos d => digits d
  | Decimal.Neg d => 45%N :: digits d
  end.

(** The three characters [normalize] deletes wherever they occur. *)
Definition NBSP : N := 160.
Definition CR : N := 13.
Definition TAB : N := 9.

End PyStr.

(** ** Values *)

(** A cell value as [normalize] can observe it.  Binary floating point is
    not modelled: [normalize] reads a [float] only through [str(val)] and
    [int(val)], so a float is given by these two observations; NaN, the
    one float with [pd.isna], is a case of its own. *)
Inductive value : Type :=
  | VNone
  | VNaN
  | VInt (n : Z)
  | VFloat (repr : pystr) (trunc : Z)
  | VStr (s : pystr).

#[global] Instance value_eq_dec : EqDecision value.
Proof. solve_decision. Defined.

(** [pd.isna(val) or val is None] *)
Definition isna (val : value) : bool :=
  match val with VNone | VNaN => true | _ => false end.

(** [isinstance(val, (int, float))] *)
Definition is_number (val : value) : bool :=
  match val with VInt _ | VFloat _ _ => true | _ => false end.

(** [str(val)] *)
Definition py_str (val : value) : pystr :=
  match val with
  | VNone => py "None"
  | VNaN => py "nan"
  | VInt n => PyStr.of_Z n
  | VFloat repr _ => repr
  | VStr s => s
  end.

(** [int(val)] on a number *)
Definition py_int (val : value) : Z :=
  match val with
  | VInt n => n
  | VFloat _ trunc => trunc
  | _ => 0
  end.

(** ** Normalizer *)

(** The last line of [normalize]:
    [s.strip().replace("\xa0", "").replace("\r", "").replace("\t", "")] *)
Definition clean (s : pystr) : pystr :=
  PyStr.remove PyStr.TAB
    (PyStr.remove PyStr.CR (PyStr.remove PyStr.NBSP (PyStr.strip s))).

(** [normalize], the closure of [compare_chunk]. *)
Definition normalize (val : value) : pystr :=
  if isna val then []
  else
    let val' :=
      if is_number val
      then (if PyStr.endswith (py_str val) (py ".0")
            then PyStr.of_Z (py_int val) else py_str val)
      else py_str val in
    clean val'.

(** ** Exceptions *)

Inductive exn : Type :=
  | KeyError (arg : pystr).

#[global] Instance exn_eq_dec : EqDecision exn.
Proof. solve_decision. Defined.

Inductive result (A : Type) : Type :=
  | Ok (a : A)
  | Raise (e : exn).

Arguments Ok {A} a.
Arguments Raise {A} e.

Definition bind {A B : Type} (m : result A) (k : A → result B) : result B :=
  match m with
  | Ok a => k a
  | Raise e => Raise e
  end.

Notation "'let*' x := m 'in' k" := (bind m (λ x, k))
  (at level 10, x name, m at level 100, k at level 200).

(** A [for] loop that threads an accumulator and stops at the first
    exception. *)
Fixpoint foldM {A B : Type} (f : B → A → result B) (acc : B) (l : list A)
  : result B :=
  match l with
  | [] => Ok acc
  | x :: l' => let* acc' := f acc x in foldM f acc' l'
  end.

(** A list built element by element, stopping at the first exception. *)
Fixpoint mapM_result {A B : Type} (f : A → result B) (l : list A)
  : result (list B) :=
  match l with
  | [] => Ok []
  | x :: l' => let* y := f x in let* ys := mapM_result f l' in Ok (y :: ys)
  end.

(** ** Data frames *)

(** A pandas [DataFrame] with the default row index: the column labels and
    the rows, each row holding one value per column (see [rectangular]). *)
Record DataFrame : Type := {
  columns : list pystr;
  rows : list (list value)
}.

(** Every frame pandas builds has one cell per column in every row. *)
Definition rectangular (df : DataFrame) : Prop :=
  Forall (λ row, length row = length (columns df)) (rows df).

(** [len(df)] *)
Definition df_len (df : DataFrame) : Z := Z.of_nat (length (rows df)).

(** [df.empty]: an axis of length 0. *)
Definition df_empty (df : DataFrame) : bool :=
  match rows df, columns df with
  | [], _ | _, [] => true
  | _, _ => false
  end.

(** [row[col]] on the Series [iterrows] yields for [row], labelled by the
    frame's columns [cols], the labels being distinct as [read_csv] makes
    them: the cell under the label, and [KeyError(col)] for an absent
    label.  (Under a repeated label pandas returns a Series, not a cell,
    and [normalize] raises on it; that a comparison of frames which need
    not come from [read_csv] returns a result is stated under [NoDup] of
    their labels.) *)
Fixpoint getitem (cols : list pystr) (row : list value) (col : pystr)
  : result value :=
  match cols, row with
  | c :: cols', v :: row' =>
      if decide (c = col) then Ok v else getitem cols' row' col
  | _, _ => Raise (KeyError col)
  end.

(** [df[col]]: the values of one column, top to bottom. *)
Definition getcolumn (df : DataFrame) (col : pystr) : result (list value) :=
  if decide (col ∈ columns df)
  then mapM_result (λ row, getitem (columns df) row col) (rows df)
  else Raise (KeyError col).

(** [df.iloc[start:stop]] for [0 <= start]. *)
Definition iloc (df : DataFrame) (start stop : Z) : DataFrame :=
  {| columns := columns df;
     rows := take (Z.to_nat (stop - start)) (drop (Z.to_nat start) (rows df)) |}.

(** [series.isin(values)] on one element *)
Definition isin (values : list value) (v : value) : bool :=
  bool_decide (v ∈ values).

(** [df[mask]]: boolean indexing, the rows whose mask entry is [True]. *)
Definition mask_rows (df : DataFrame) (mask : list bool) : DataFrame :=
  {| columns := columns df;
     rows := fst <$> filter (λ rb, rb.2 = true) (zip (rows df) mask) |}.

(** ** Loading: [read_blob_to_df] *)

(** What [pd.read_csv(..., dtype=str)] parsed from the downloaded blob:
    the header and, for every record, one field per column, each a [str]
    or missing. *)
Record Csv : Type := {
  header : list pystr;
  records : list (list (option pystr))
}.

Definition read_csv (blob : Csv) : DataFrame :=
  {| columns := header blob;
     rows := map (map (λ field, match field with
                                | Some s => VStr s
                                | None => VNaN
                                end)) (records blob) |}.

(** [df.applymap(f)] *)
Definition applymap (f : value → value) (df : DataFrame) : DataFrame :=
  {| columns := columns df; rows := map (map f) (rows df) |}.

(** [df.fillna(fill)] *)
Definition fillna (fill : value) (df : DataFrame) : DataFrame :=
  applymap (λ v, if isna v then fill else v) df.

(** [lambda v: v.strip() if isinstance(v, str) else v] *)
Definition strip_if_str (v : value) : value :=
  match v with
  | VStr s => VStr (PyStr.strip s)
  | _ => v
  end.

Definition read_blob_to_df (blob : Csv) : DataFrame :=
  let df := read_csv blob in
  applymap strip_if_str (fillna (VStr []) df).

(** ** Tuning: [auto_tune_settings] *)

(** What [psutil] reports: the physical core count (possibly [None]) and
    the available memory in bytes. *)
Record Host : Type := {
  physical_cores : option N;
  mem_available : Z
}.

(** [psutil.cpu_count(logical=False) or 1] *)
Definition cpu_count_or_1 (host : Host) : Z :=
  match physical_cores host with
  | Some (Npos p) => Zpos p
  | _ => 1
  end.

(** [mem_gb < 4] for [mem_gb = available / (1024 ** 3)]: dividing by a
    power of two is monotone and exact at the threshold, so the test is
    [available < 4 * 1024 ** 3]. *)
Definition low_memory (host : Host) : bool :=
  mem_available host <? 4 * 1024 ^ 3.

Definition auto_tune_settings (host : Host) (total_records : Z) : Z * Z :=
  let cpu_count := cpu_count_or_1 host in
  let '(chunk_size, threads) :=
    if total_records <=? 100000 then (20000, Z.min 6 cpu_count)
    else if total_records <=? 1000000 then (30000, Z.min 8 (cpu_count * 2))
    else (50000, Z.min 16 (cpu_count * 2)) in
  if low_memory host
  then (Z.max 5000 (chunk_size / 2), Z.max 2 (threads / 2))
  else (chunk_size, threads).

(** ** Chunk comparison: [compare_chunk] *)

(** One entry of [diffs].  [Diff] holds the [mismatch] dict, column to
    [(src, tgt)], in insertion order; the code stores its [json.dumps]. *)
Inductive DiffRecord : Type :=
  | MISSING_IN_TARGET (PK : pystr)
  | MISMATCH (PK : pystr) (Diff : list (pystr * (pystr * pystr))).

#[global] Instance DiffRecord_eq_dec : EqDecision DiffRecord.
Proof. solve_decision. Defined.

Record ChunkResult : Type := {
  diffs : list DiffRecord;
  matched : Z;
  missing : Z;
  mismatched : Z;
  checked : Z
}.

(** [d[k] = v] on an insertion-ordered dict. *)
Fixpoint dict_set {V : Type} (d : list (pystr * V)) (k : pystr) (v : V)
  : list (pystr * V) :=
  match d with
  | [] => [(k, v)]
  | (k', v') :: d' =>
      if decide (k' = k) then (k, v) :: d' else (k', v') :: dict_set d' k v
  end.

(** [{col: normalize(row[col]) for col in tgt_chunk.columns}] *)
Definition normalized_row (cols : list pystr) (row : list value)
  : result (gmap pystr pystr) :=
  foldM (λ d col, let* v := getitem cols row col in
                  Ok (<[col := normalize v]> d)) ∅ cols.

(** The first loop: [tgt_map], normalized key to normalized row, a later
    row overwriting an earlier one with the same key. *)
Definition build_tgt_map (tgt_chunk : DataFrame) (pk_col : pystr)
  : result (gmap pystr (gmap pystr pystr)) :=
  if df_empty tgt_chunk then Ok ∅
  else
    foldM (λ tgt_map row,
             let* k := getitem (columns tgt_chunk) row pk_col in
             let pk := normalize k in
             let* d := normalized_row (columns tgt_chunk) row in
             Ok (<[pk := d]> tgt_map))
          ∅ (rows tgt_chunk).

(** The inner loop: the [mismatch] dict of one source row against its
    target row. *)
Definition row_mismatch (cols : list pystr) (pk_col : pystr)
    (src_row : list value) (tgt_row : gmap pystr pystr)
  : result (list (pystr * (pystr * pystr))) :=
  foldM (λ mismatch col,
           if decide (col = pk_col) then Ok mismatch
           else
             let* v := getitem cols src_row col in
             let tgt := default [] (tgt_row !! col) in
             if decide (normalize v ≠ tgt)
             then Ok (dict_set mismatch col (normalize v, tgt))
             else Ok mismatch)
        [] cols.

(** What the body of the second loop decides for one source row: the diff
    record it appends, or [None] when the row matches. *)
Definition compare_row (tgt_map : gmap pystr (gmap pystr pystr))
    (cols : list pystr) (pk_col : pystr) (src_row : list value)
  : result (option DiffRecord) :=
  let* k := getitem cols src_row pk_col in
  let pk_val := normalize k in
  match tgt_map !! pk_val with
  | None => Ok (Some (MISSING_IN_TARGET pk_val))
  | Some tgt_row =>
      let* mismatch := row_mismatch cols pk_col src_row tgt_row in
      match mismatch with
      | [] => Ok None
      | _ :: _ => Ok (Some (MISMATCH pk_val mismatch))
      end
  end.

(** How the body of the second loop updates the counters. *)
Definition tally (acc : ChunkResult) (outcome : option DiffRecord)
  : ChunkResult :=
  match outcome with
  | Some (MISSING_IN_TARGET _ as d) =>
      {| diffs := diffs acc ++ [d]; matched := matched acc;
         missing := missing acc + 1; mismatched := mismatched acc;
         checked := checked acc + 1 |}
  | Some (MISMATCH _ _ as d) =>
      {| diffs := diffs acc ++ [d]; matched := matched acc;
         missing := missing acc; mismatched := mismatched acc + 1;
         checked := checked acc + 1 |}
  | None =>
      {| diffs := diffs acc; matched := matched acc + 1;
         missing := missing acc; mismatched := mismatched acc;
         checked := checked acc + 1 |}
  end.

(** [diffs, matched, missing, mismatched, checked = [], 0, 0, 0, 0] *)
Definition no_result : ChunkResult :=
  {| diffs := []; matched := 0; missing := 0; mismatched := 0; checked := 0 |}.

Definition compare_chunk (src_chunk tgt_chunk : DataFrame) (pk_col : pystr)
  : result ChunkResult :=
  let* tgt_map := build_tgt_map tgt_chunk pk_col in
  foldM (λ acc src_row,
           let* outcome := compare_row tgt_map (columns src_chunk) pk_col src_row in
           Ok (tally acc outcome))
        no_result (rows src_chunk).

(** ** The worker pool *)

(** [ThreadPoolExecutor(max_workers)] running the submitted calls: the
    calls wait in a FIFO queue, an idle worker takes the next one, and any
    running call may be the next to finish.  [timing] resolves that choice:
    its head picks, among the running calls, the one that finishes next.
    The result is the order in which the calls complete. *)
Fixpoint pool_complete {A : Type} (fuel max_workers : nat)
    (queue running : list A) (timing : list nat) : list A :=
  match fuel with
  | O => []
  | S fuel' =>
      let idle := (max_workers - length running)%nat in
      let running' := running ++ take idle queue in
      let queue' := drop idle queue in
      let k := (hd O timing mod length running')%nat in
      match running' !! k with
      | Some call =>
          call :: pool_complete fuel' max_workers queue' (delete k running')
                    (tl timing)
      | None => []
      end
  end.

(** [as_completed(futures)]: the futures in the order the loop receives
    them, here the order in which they complete.  (The library yields
    first, in no particular order, those that have already finished when
    it is called; in either case every future is yielded once.) *)
Definition as_completed {A : Type} (max_workers : Z) (futures : list A)
    (timing : list nat) : list A :=
  pool_complete (length futures) (Z.to_nat max_workers) futures [] timing.

(** ** The engine: [process_parallel_blob] *)

(** [math.ceil(a / b)].  The quotient is a float; for a row count below
    [2 ** 53], as that of any frame in memory, and a chunk size of at
    least 1 its ceiling is the integer ceiling. *)
Definition ceil_div (a b : Z) : Z := (a + b - 1) / b.

(** [src_df.iloc[start:end]] of iteration [i] *)
Definition src_chunk_at (src_df : DataFrame) (chunk_size i : Z) : DataFrame :=
  let total_source := df_len src_df in
  let start := i * chunk_size in
  let stop := Z.min ((i + 1) * chunk_size) total_source in
  iloc src_df start stop.

(** The source chunks of [for i in range(chunks)], in submission order. *)
Definition source_chunks (src_df : DataFrame) (chunk_size : Z)
  : list DataFrame :=
  let chunks := ceil_div (df_len src_df) chunk_size in
  map (src_chunk_at src_df chunk_size) (seqZ 0 chunks).

(** [tgt_df[tgt_df[pk_col].isin(src_chunk[pk_col])]] *)
Definition target_subset (tgt_df src_chunk : DataFrame) (pk_col : pystr)
  : result DataFrame :=
  let* tgt_keys := getcolumn tgt_df pk_col in
  let* src_keys := getcolumn src_chunk pk_col in
  Ok (mask_rows tgt_df (map (isin src_keys) tgt_keys)).

(** The submission loop.  A future is the outcome its call will have: a
    [ChunkResult] or the exception [f.result()] re-raises. *)
Definition submit_all (src_df tgt_df : DataFrame) (pk_col : pystr)
    (chunk_size : Z) : result (list (result ChunkResult)) :=
  mapM_result (λ src_chunk,
                 let* tgt_chunk := target_subset tgt_df src_chunk pk_col in
                 Ok (compare_chunk src_chunk tgt_chunk pk_col))
              (source_chunks src_df chunk_size).

(** The body of the aggregation loop. *)
Definition merge (acc res : ChunkResult) : ChunkResult :=
  {| diffs := diffs acc ++ diffs res;
     matched := matched acc + matched res;
     missing := missing acc + missing res;
     mismatched := mismatched acc + mismatched res;
     checked := checked acc + checked res |}.

(** [for f in as_completed(futures): res = f.result(); ...] *)
Definition collect (completed : list (result ChunkResult))
  : result ChunkResult :=
  foldM (λ acc f, let* res := f in Ok (merge acc res)) no_result completed.

(** The [with ThreadPoolExecutor(max_workers=thread_count)] block: submit
    every chunk, then aggregate the results as they complete. *)
Definition run_pool (src_df tgt_df : DataFrame) (pk_col : pystr)
    (chunk_size thread_count : Z) (timing : list nat) : result ChunkResult :=
  let* futures := submit_all src_df tgt_df pk_col chunk_size in
  collect (as_completed thread_count futures timing).

(** What a run leaves behind: the row counts, the aggregated [all_diffs]
    and counters, and the summary text written to the output blob. *)
Record Report : Type := {
  total_source : Z;
  total_target : Z;
  totals : ChunkResult;
  content : pystr
}.

(** ["\n".join(lines)] *)
Fixpoint join_lines (lines : list pystr) : pystr :=
  match lines with
  | [] => []
  | [l] => l
  | l :: ls => l ++ 10%N :: join_lines ls
  end.

Definition summary (total_source total_target matched mismatched : Z)
  : list pystr :=
  [ py "Source count : " ++ PyStr.of_Z total_source;
    py "Target count : " ++ PyStr.of_Z total_target;
    py "Matched count : " ++ PyStr.of_Z matched;
    py "Mismatched count : " ++ PyStr.of_Z mismatched ].

(** The message of the [KeyError] raised for an absent key column. *)
Definition pk_not_found (pk_col : pystr) : pystr :=
  py "Primary key '" ++ pk_col ++ py "' not found in one of the files".

(** [process_parallel_blob], given the parsed contents of the two blobs,
    what [psutil] reports on the host, and the [timing] of the pool. *)
Definition process_parallel_blob (host : Host) (source_blob target_blob : Csv)
    (pk_col : pystr) (timing : list nat) : result Report :=
  let src_df := read_blob_to_df source_blob in
  let tgt_df := read_blob_to_df target_blob in
  if negb (bool_decide (pk_col ∈ columns src_df))
     || negb (bool_decide (pk_col ∈ columns tgt_df))
  then Raise (KeyError (pk_not_found pk_col))
  else
    let total_source := df_len src_df in
    let total_target := df_len tgt_df in
    let '(chunk_size, thread_count) := auto_tune_settings host total_source in
    let* sums := run_pool src_df tgt_df pk_col chunk_size thread_count timing in
    Ok {| total_source := total_source;
          total_target := total_target;
          totals := sums;
          content := join_lines (summary total_source total_target
                                   (matched sums) (mismatched sums)) |}.

(** ** Test data *)

(** Test tables are written as text: records separated by [|], fields by
    [,]; an empty field is a missing cell. *)
Fixpoint split_on (sep : N) (s : pystr) : list pystr :=
  match s with
  | [] => [[]]
  | c :: s' =>
      if decide (c = sep) then [] :: split_on sep s'
      else match split_on sep s' with
           | field :: rest => (c :: field) :: rest
           | [] => [[c]]
           end
  end.

Definition csv (text : string) : Csv :=
  let lines := map (split_on 44%N) (split_on 124%N (py text)) in
  {| header := hd [] lines;
     records := map (map (λ f, match f with [] => None | _ => Some f end))
                    (tl lines) |}.

Arguments csv text%_string.

Definition host8 : Host :=
  {| physical_cores := Some 8%N; mem_available := 16 * 1024 ^ 3 |}.


(** ** Vocabulary of the properties *)

(** The outcome of one source row, as [compare_row] returns it. *)
Definition is_matched (o : option DiffRecord) : bool :=
  match o with None => true | Some _ => false end.

Definition is_missing (o : option DiffRecord) : bool :=
  match o with Some (MISSING_IN_TARGET _) => true | _ => false end.

Definition is_mismatched (o : option DiffRecord) : bool :=
  match o with Some (MISMATCH _ _) => true | _ => false end.

(** How many outcomes of a list satisfy [p]. *)
Definition count (p : option DiffRecord → bool)
    (outcomes : list (option DiffRecord)) : Z :=
  Z.of_nat (length (filter (λ o, p o = true) outcomes)).

(** The outcomes of the rows of one chunk, in row order. *)
Definition chunk_outcomes (src_chunk tgt_chunk : DataFrame) (pk_col : pystr)
  : result (list (option DiffRecord)) :=
  let* tgt_map := build_tgt_map tgt_chunk pk_col in
  mapM_result (compare_row tgt_map (columns src_chunk) pk_col)
              (rows src_chunk).

(** The outcomes of all source rows of a run, in source row order. *)
Definition run_outcomes (src_df tgt_df : DataFrame) (pk_col : pystr)
    (chunk_size : Z) : result (list (option DiffRecord)) :=
  let* per_chunk :=
    mapM_result (λ src_chunk,
                   let* tgt_chunk := target_subset tgt_df src_chunk pk_col in
                   chunk_outcomes src_chunk tgt_chunk pk_col)
                (source_chunks src_df chunk_size) in
  Ok (concat per_chunk).

(** The result of a run, when it returns one. *)
Definition returned {A : Type} (r : result A) : option A :=
  match r with Ok a => Some a | Raise _ => None end.

(** The four counters of a result. *)
Definition counters (r : ChunkResult) : Z * Z * Z * Z :=
  (matched r, missing r, mismatched r, checked r).

(** [row[col]] where it is known not to raise. *)
Definition cell (cols : list pystr) (row : list value) (col : pystr) : value :=
  match getitem cols row col with Ok v => v | Raise _ => VNone end.

(** [tgt_row.get(col, "")] for the normalized copy of the target row
    [row]. *)
Definition target_cell (cols : list pystr) (row : list value) (col : pystr)
  : pystr :=
  if decide (col ∈ cols) then normalize (cell cols row col) else [].

Definition sumZ (l : list Z) : Z := foldr Z.add 0 l.

(** Two runs agree: both raise, or both return results with the same
    counters and the same diff records up to their order. *)
Definition same_outcome (r1 r2 : result ChunkResult) : Prop :=
  match r1, r2 with
  | Ok a, Ok b => counters a = counters b ∧ diffs a ≡ₚ diffs b
  | Raise _, Raise _ => True
  | _, _ => False
  end.

(** The chunk size and worker count a run uses. *)
Definition chunk_size_of (host : Host) (src_df : DataFrame) : Z :=
  (auto_tune_settings host (df_len src_df)).1.

Definition thread_count_of (host : Host) (src_df : DataFrame) : Z :=
  (auto_tune_settings host (df_len src_df)).2.

(** The result a chunk returns for the outcomes of its rows. *)
Definition tally_all (outcomes : list (option DiffRecord)) : ChunkResult :=
  foldl tally no_result outcomes.

(** The parser gave every record one field per header column. *)
Definition Csv_rectangular (blob : Csv) : Prop :=
  Forall (λ record, length record = length (header blob)) (records blob).

(** The normalized key of a row. *)
Definition normalized_key (cols : list pystr) (pk_col : pystr)
    (row : list value) : pystr :=
  normalize (cell cols row pk_col).

(** The raw key values of a frame, [df[pk_col]] where it does not raise. *)
Definition raw_keys (df : DataFrame) (pk_col : pystr) : list value :=
  map (λ row, cell (columns df) row pk_col) (rows df).

(** A source row agrees with the target: some target row has its raw key,
    and every target row with its normalized key carries, in each non-key
    source column, a cell with the same normalized value (the empty string
    standing for a column the target lacks). *)
Definition agrees_with_target (src_df tgt_df : DataFrame) (pk_col : pystr)
    (row : list value) : Prop :=
  (∃ t, t ∈ rows tgt_df
        ∧ cell (columns tgt_df) t pk_col = cell (columns src_df) row pk_col)
  ∧ (∀ t, t ∈ rows tgt_df →
          normalized_key (columns tgt_df) pk_col t
          = normalized_key (columns src_df) pk_col row →
          ∀ c, c ∈ columns src_df → c ≠ pk_col →
               normalize (cell (columns src_df) row c)
               = target_cell (columns tgt_df) t c).

(** No target row has the normalized key of the source row. *)
Definition absent_from_target (src_df tgt_df : DataFrame) (pk_col : pystr)
    (row : list value) : Prop :=
  ∀ t, t ∈ rows tgt_df →
       normalized_key (columns tgt_df) pk_col t
       ≠ normalized_key (columns src_df) pk_col row.

(** What a run owes a source row. *)
Definition row_outcome_ok (src_df tgt_df : DataFrame) (pk_col : pystr)
    (row : list value) (o : option DiffRecord) : Prop :=
  (agrees_with_target src_df tgt_df pk_col row → o = None)
  ∧ (absent_from_target src_df tgt_df pk_col row →
     o = Some (MISSING_IN_TARGET
                 (normalized_key (columns src_df) pk_col row))).

(** A string without whitespace at either end. *)
Definition no_outer_space (s : pystr) : Prop :=
  (∀ c, head s = Some c → PyStr.isspace c = false)
  ∧ (∀ c, last s = Some c → PyStr.isspace c = false).


(** A table whose rows with the same normalized key carry the same
    normalized value in every other column. *)
Definition key_consistent (df : DataFrame) (pk_col : pystr) : Prop :=
  ∀ r1 r2, r1 ∈ rows df → r2 ∈ rows df →
    normalized_key (columns df) pk_col r1
    = normalized_key (columns df) pk_col r2 →
    ∀ c, c ∈ columns df → c ≠ pk_col →
         normalize (cell (columns df) r1 c)
         = normalize (cell (columns df) r2 c).

(** Two reports agree up to the order of their diff records. *)
Definition same_report (r1 r2 : result Report) : Prop :=
  match r1, r2 with
  | Ok a, Ok b =>
      counters (totals a) = counters (totals b)
      ∧ diffs (totals a) ≡ₚ diffs (totals b)
      ∧ total_source a = total_source b
      ∧ total_target a = total_target b
      ∧ content a = content b
  | Raise _, Raise _ => True
  | _, _ => False
  end.

(** A host with the given core count and available memory. *)
Definition host_with (cores : option N) (mem : Z) : Host :=
  {| physical_cores := cores; mem_available := mem |}.

(** Test tables of the counterexamples. *)
Definition duplicate_keys : Csv := csv "pk,a|1,X|1,Y".

(** The key of the first source row has an embedded tab, the key of the
    first target row does not; the second source row meets two target rows
    with its key. *)
Definition cosmetic_source : Csv :=
  {| header := [py "pk"; py "a"];
     records := [[Some (py "a" ++ [PyStr.TAB] ++ py "b"); Some (py "X")];
                 [Some (py "1"); Some (py "X")]] |}.

Definition cosmetic_target : Csv := csv "pk,a|ab,X|1,X|1,Y".

(** ** Further vocabulary *)

(** The characters [normalize] deletes wherever they occur. *)
Definition deleted_char (c : N) : Prop :=
  c = PyStr.NBSP ∨ c = PyStr.CR ∨ c = PyStr.TAB.

(** A string of whitespace only. *)
Definition all_space (w : pystr) : Prop :=
  Forall (λ c, PyStr.isspace c = true) w.

(** What [read_blob_to_df] does to a parsed frame:
    [df.fillna("").applymap(...)]. *)
Definition clean_frame (df : DataFrame) : DataFrame :=
  applymap strip_if_str (fillna (VStr []) df).

(** *** What [compare_chunk] computes, stated directly *)

(** The target row a source row with normalized key [k] is compared with:
    the last row of the target chunk with that normalized key. *)
Definition last_with_key (tgt_chunk : DataFrame) (pk_col : pystr) (k : pystr)
  : option (list value) :=
  last (filter (λ t, normalized_key (columns tgt_chunk) pk_col t = k)
               (rows tgt_chunk)).

(** The non-key source columns whose normalized cell differs from the cell
    of the target row [t], in column order, each with the two normalized
    values. *)
Definition differing_columns (src_cols tgt_cols : list pystr)
    (pk_col : pystr) (row t : list value)
  : list (pystr * (pystr * pystr)) :=
  omap (λ c, if decide (c = pk_col) then None
             else
               let s := normalize (cell src_cols row c) in
               let g := target_cell tgt_cols t c in
               if decide (s ≠ g) then Some (c, (s, g)) else None)
       src_cols.

(** The outcome of one source row against a target chunk. *)
Definition expected_outcome (src_chunk tgt_chunk : DataFrame)
    (pk_col : pystr) (row : list value) : option DiffRecord :=
  let k := normalized_key (columns src_chunk) pk_col row in
  match last_with_key tgt_chunk pk_col k with
  | None => Some (MISSING_IN_TARGET k)
  | Some t =>
      match differing_columns (columns src_chunk) (columns tgt_chunk)
              pk_col row t with
      | [] => None
      | mm => Some (MISMATCH k mm)
      end
  end.

(** The ["PK"] entry of a diff record. *)
Definition diff_pk (d : DiffRecord) : pystr :=
  match d with
  | MISSING_IN_TARGET pk => pk
  | MISMATCH pk _ => pk
  end.

(** The normalized keys of the rows of a frame, in row order. *)
Definition normalized_keys (df : DataFrame) (pk_col : pystr) : list pystr :=
  map (normalized_key (columns df) pk_col) (rows df).

(** Example frames. *)
Definition orders_src : DataFrame :=
  read_blob_to_df (csv "pk,a,b|1,X,p|2,Y,q|3,Z,r|4,W,s").

Definition orders_tgt : DataFrame :=
  read_blob_to_df (csv "pk,a,b|1,X,p|3,Z,old|9,V,v|3,ZZ,r").

(** The target rows whose raw key is the raw key of some source row: the
    only target rows a target subset can hold. *)
Definition relevant_rows (src_df tgt_df : DataFrame) (pk_col : pystr)
  : list (list value) :=
  filter (λ t, cell (columns tgt_df) t pk_col ∈ raw_keys src_df pk_col)
         (rows tgt_df).

(** No target row whose raw key occurs in the source has the normalized
    key of the source row. *)
Definition no_candidate (src_df tgt_df : DataFrame) (pk_col : pystr)
    (row : list value) : Prop :=
  ∀ t, t ∈ relevant_rows src_df tgt_df pk_col →
       normalized_key (columns tgt_df) pk_col t
       ≠ normalized_key (columns src_df) pk_col row.

(** Some target row has the raw key of the source row, and every target
    row with its normalized key differs from it, after normalization, in
    some non-key source column. *)
Definition differs_from_target (src_df tgt_df : DataFrame) (pk_col : pystr)
    (row : list value) : Prop :=
  (∃ t, t ∈ rows tgt_df
        ∧ cell (columns tgt_df) t pk_col = cell (columns src_df) row pk_col)
  ∧ (∀ t, t ∈ rows tgt_df →
          normalized_key (columns tgt_df) pk_col t
          = normalized_key (columns src_df) pk_col row →
          ∃ c, c ∈ columns src_df ∧ c ≠ pk_col
               ∧ normalize (cell (columns src_df) row c)
                 ≠ target_cell (columns tgt_df) t c).

(** Keys are canonical across the two tables: a target row with the
    normalized key of a source row has its raw key. *)
Definition canonical_keys (src_df tgt_df : DataFrame) (pk_col : pystr)
  : Prop :=
  ∀ row t, row ∈ rows src_df → t ∈ rows tgt_df →
    normalized_key (columns tgt_df) pk_col t
    = normalized_key (columns src_df) pk_col row →
    cell (columns tgt_df) t pk_col = cell (columns src_df) row pk_col.

(** *** The output blob *)

(** [f"output/diff_result_{int(time.time())}.txt"], given the second
    [now = int(time.time())] at which the name is built. *)
Definition output_blob_name (now : Z) : pystr :=
  py "output/diff_result_" ++ PyStr.of_Z now ++ py ".txt".

(** [write_results_to_blob]: [upload_blob(content, overwrite=True)] creates
    the blob or replaces its content; the container is the map from blob
    names to contents. *)
Definition write_results_to_blob (container : gmap pystr pystr)
    (blob_name content : pystr) : gmap pystr pystr * pystr :=
  (<[blob_name := content]> container, blob_name).

(** The end of [process_parallel_blob]: the summary is written to the
    output blob and the name of the blob is returned; a run that raised
    before has written nothing. *)
Definition process_and_store (container : gmap pystr pystr) (host : Host)
    (source_blob target_blob : Csv) (pk_col : pystr) (timing : list nat)
    (now : Z) : gmap pystr pystr * result pystr :=
  match process_parallel_blob host source_blob target_blob pk_col timing with
  | Ok report =>
      let '(container', output_blob_name) :=
        write_results_to_blob container (output_blob_name now)
          (content report) in
      (container', Ok output_blob_name)
  | Raise e => (container, Raise e)
  end.
(** * Properties *)

(** ** Scenarios of the specification *)

Example normalize_trailing_space :
  normalize (VStr (py "X ")) = py "X".
Proof. vm_compute. reflexivity. Qed.

Example normalize_float_int :
  normalize (VFloat (py "12.0") 12) = py "12".
Proof. vm_compute. reflexivity. Qed.

Example normalize_embedded :
  normalize (VStr [9; 97; 160; 98; 13; 32; 99; 32])%N = py "ab c".
Proof. vm_compute. reflexivity. Qed.

(** Source [{pk:1,a:X},{pk:2,a:Y}] against target
    [{pk:1,a:X},{pk:3,a:Z}]. *)
Example scenario_missing :
  totals <$> returned (process_parallel_blob host8 (csv "pk,a|1,X|2,Y")
                         (csv "pk,a|1,X|3,Z") (py "pk") [])
  = Some {| diffs := [MISSING_IN_TARGET (py "2")];
            matched := 1; missing := 1; mismatched := 0; checked := 2 |}.
Proof. vm_compute. reflexivity. Qed.

(** A trailing space in a source cell, stripped at load. *)
Example scenario_trailing_space :
  totals <$> returned (process_parallel_blob host8 (csv "pk,a|1,X ")
                         (csv "pk,a|1,X") (py "pk") [])
  = Some {| diffs := [];
            matched := 1; missing := 0; mismatched := 0; checked := 1 |}.
Proof. vm_compute. reflexivity. Qed.

Example scenario_mismatch :
  totals <$> returned (process_parallel_blob host8 (csv "pk,a|1,X")
                         (csv "pk,a|1,Y") (py "pk") [])
  = Some {| diffs := [MISMATCH (py "1") [(py "a", (py "X", py "Y"))]];
            matched := 0; missing := 0; mismatched := 1; checked := 1 |}.
Proof. vm_compute. reflexivity. Qed.

Example scenario_summary :
  content <$> returned (process_parallel_blob host8 (csv "pk,a|1,X|2,Y")
                          (csv "pk,a|1,X|3,Z") (py "pk") [])
  = Some (py "Source count : 2" ++ [10%N] ++ py "Target count : 2" ++ [10%N]
          ++ py "Matched count : 1" ++ [10%N] ++ py "Mismatched count : 0").
Proof. vm_compute. reflexivity. Qed.

(** ** Strings and the normalizer *)

Section strip_facts.
Import PyStr.

Lemma lstrip_idem s : lstrip (lstrip s) = lstrip s.
Proof.
  induction s as [|c s IH]; simpl; [done|].
  destruct (isspace c) eqn:Hc; [done|]. simpl. by rewrite Hc.
Qed.

(** [lstrip] drops a prefix of whitespace. *)
Lemma lstrip_split s :
  ∃ w, s = w ++ lstrip s ∧ Forall (λ c, isspace c = true) w.
Proof.
  induction s as [|c s (w & Hs & Hw)]; simpl.
  - by exists [].
  - destruct (isspace c) eqn:Hc.
    + exists (c :: w). split; [by rewrite Hs at 1 | by constructor].
    + by exists [].
Qed.

(** A string is left alone by [lstrip] exactly when it does not start
    with whitespace. *)
Lemma lstrip_fixed s :
  lstrip s = s ↔ ∀ c, head s = Some c → isspace c = false.
Proof.
  destruct s as [|c s]; simpl; [naive_solver|].
  destruct (isspace c) eqn:Hc.
  - split; [|intros H; specialize (H c eq_refl); congruence].
    intros Heq. destruct (lstrip_split s) as (w & Hs & _).
    apply (f_equal length) in Hs. apply (f_equal length) in Heq.
    rewrite length_app in Hs. simpl in Heq. lia.
  - split; [|done]. intros _ c' [= <-]. done.
Qed.

Lemma strip_lstrip_fixed s : lstrip (strip s) = strip s.
Proof.
  unfold strip, rstrip.
  pose proof (lstrip_idem s) as Hu. set (u := lstrip s) in *.
  destruct (lstrip_split (reverse u)) as (w & Hrev & _).
  set (t := lstrip (reverse u)) in *.
  assert (u = reverse t ++ reverse w) as Hu'.
  { by rewrite <-reverse_app, <-Hrev, reverse_involutive. }
  apply lstrip_fixed. intros c Hc. apply (proj1 (lstrip_fixed u) Hu).
  rewrite Hu'. destruct (reverse t); [done|]. done.
Qed.

Lemma strip_rstrip_fixed s : lstrip (reverse (strip s)) = reverse (strip s).
Proof.
  unfold strip, rstrip. by rewrite reverse_involutive, lstrip_idem.
Qed.

(** A string with no whitespace at either end is left alone by [strip]. *)
Lemma strip_fixed s :
  lstrip s = s → lstrip (reverse s) = reverse s → strip s = s.
Proof.
  intros Hl Hr. unfold strip, rstrip.
  by rewrite Hl, Hr, reverse_involutive.
Qed.

Lemma strip_idem s : strip (strip s) = strip s.
Proof.
  apply strip_fixed; [apply strip_lstrip_fixed | apply strip_rstrip_fixed].
Qed.

(** Deleting a whitespace character keeps a string free of leading
    whitespace. *)
Lemma remove_lstrip_fixed c s :
  isspace c = true → lstrip s = s → lstrip (remove c s) = remove c s.
Proof.
  intros Hc Hs. destruct s as [|x s]; [done|].
  assert (isspace x = false) as Hx by (by apply (proj1 (lstrip_fixed _) Hs)).
  unfold remove. rewrite filter_cons_True by congruence.
  simpl. by rewrite Hx.
Qed.

Lemma remove_reverse c s : remove c (reverse s) = reverse (remove c s).
Proof. apply filter_reverse. Qed.

Lemma remove_absent c s : c ∉ s → remove c s = s.
Proof.
  induction s as [|x s IH]; [done|]. intros Hnot.
  unfold remove. rewrite filter_cons_True.
  - f_equal. apply IH. set_solver.
  - set_solver.
Qed.

Lemma remove_not_elem c s : c ∉ remove c s.
Proof. unfold remove. rewrite list_elem_of_filter. by intros [? _]. Qed.

Lemma remove_not_elem_other c d s : d ∉ s → d ∉ remove c s.
Proof. unfold remove. rewrite list_elem_of_filter. by intros ? [_ ?]. Qed.

End strip_facts.

(** What [clean] returns: no whitespace at either end and none of the
    three deleted characters. *)
Lemma clean_shape s :
  PyStr.lstrip (clean s) = clean s
  ∧ PyStr.lstrip (reverse (clean s)) = reverse (clean s)
  ∧ (PyStr.NBSP ∉ clean s) ∧ (PyStr.CR ∉ clean s) ∧ (PyStr.TAB ∉ clean s).
Proof.
  unfold clean. repeat split.
  - do 3 (apply remove_lstrip_fixed; [done|]). apply strip_lstrip_fixed.
  - rewrite <-!remove_reverse.
    do 3 (apply remove_lstrip_fixed; [done|]). apply strip_rstrip_fixed.
  - do 2 apply remove_not_elem_other. apply remove_not_elem.
  - apply remove_not_elem_other, remove_not_elem.
  - apply remove_not_elem.
Qed.

Lemma clean_fixed s :
  PyStr.lstrip s = s → PyStr.lstrip (reverse s) = reverse s →
  PyStr.NBSP ∉ s → PyStr.CR ∉ s → PyStr.TAB ∉ s → clean s = s.
Proof.
  intros Hl Hr Hn Hc Ht. unfold clean.
  rewrite (strip_fixed s Hl Hr).
  by rewrite (remove_absent _ s Hn), (remove_absent _ s Hc), (remove_absent _ s Ht).
Qed.

Lemma clean_idem s : clean (clean s) = clean s.
Proof.
  destruct (clean_shape s) as (Hl & Hr & Hn & Hc & Ht).
  by apply clean_fixed.
Qed.

(** [normalize] on a string is [clean]. *)
Lemma normalize_str s : normalize (VStr s) = clean s.
Proof. done. Qed.

(** Whatever the value, [normalize] returns a cleaned string. *)
Lemma normalize_clean val : ∃ s, normalize val = clean s.
Proof.
  unfold normalize. destruct (isna val).
  - by exists [].
  - eauto.
Qed.

(** C8. Normalization is idempotent: normalizing the string that
    [normalize] returned for any value [x] gives that string back. *)
Theorem C8_normalize_idempotent (x : value) :
  normalize (VStr (normalize x)) = normalize x.
Proof.
  destruct (normalize_clean x) as [s ->].
  rewrite normalize_str. apply clean_idem.
Qed.

(** ** Tuning *)

Lemma cpu_count_or_1_pos host : 1 ≤ cpu_count_or_1 host.
Proof.
  unfold cpu_count_or_1. destruct (physical_cores host) as [[|p]|]; lia.
Qed.

Lemma auto_tune_settings_bounds host total :
  5000 ≤ (auto_tune_settings host total).1
  ∧ 1 ≤ (auto_tune_settings host total).2.
Proof.
  pose proof (cpu_count_or_1_pos host).
  unfold auto_tune_settings.
  destruct (total <=? 100000), (total <=? 1000000), (low_memory host);
    simpl; lia.
Qed.

(** C7. The tuning follows the threshold table on the source row count,
    with [cores] the reported physical core count (1 when none is
    reported); below 4 GB of available memory the chunk size is halved
    with floor 5000 and the worker count is halved with floor 2. *)
Theorem C7_auto_tune_table (host : Host) (total_source_rows : Z) :
  let cores := cpu_count_or_1 host in
  let base :=
    if decide (total_source_rows ≤ 100000) then (20000, Z.min 6 cores)
    else if decide (total_source_rows ≤ 1000000)
         then (30000, Z.min 8 (cores * 2))
         else (50000, Z.min 16 (cores * 2)) in
  (4 * 1024 ^ 3 ≤ mem_available host →
     auto_tune_settings host total_source_rows = base)
  ∧ (mem_available host < 4 * 1024 ^ 3 →
     auto_tune_settings host total_source_rows
     = (Z.max 5000 (base.1 `div` 2), Z.max 2 (base.2 `div` 2))).
Proof.
  intros cores base. subst base cores.
  unfold auto_tune_settings, low_memory.
  split; intros Hmem.
  - replace (mem_available host <? 4 * 1024 ^ 3) with false by lia.
    repeat case_decide; repeat case_match; simplify_eq; try lia; done.
  - replace (mem_available host <? 4 * 1024 ^ 3) with true by lia.
    repeat case_decide; repeat case_match; simplify_eq; try lia; done.
Qed.

Lemma C7_auto_tune_table_witness :
  auto_tune_settings host8 250000 = (30000, 8)
  ∧ auto_tune_settings
      {| physical_cores := Some 2%N; mem_available := 3 * 1024 ^ 3 |} 5000000
    = (25000, 2).
Proof.
  split.
  - apply (proj1 (C7_auto_tune_table host8 250000)). vm_compute. discriminate.
  - apply (proj2 (C7_auto_tune_table
                    {| physical_cores := Some 2%N;
                       mem_available := 3 * 1024 ^ 3 |} 5000000)).
    vm_compute. reflexivity.
Defined.

(** ** Partitioning the source *)

Lemma ceil_div_bounds a b :
  0 < b → b * (ceil_div a b - 1) < a ∧ a ≤ b * ceil_div a b.
Proof.
  intros Hb. unfold ceil_div.
  pose proof (Z.mul_div_le (a + b - 1) b Hb).
  pose proof (Z.mul_succ_div_gt (a + b - 1) b Hb).
  lia.
Qed.

Lemma rows_src_chunk_at src_df chunk_size i :
  rows (src_chunk_at src_df chunk_size i)
  = take (Z.to_nat (Z.min ((i + 1) * chunk_size) (df_len src_df)
                    - i * chunk_size))
         (drop (Z.to_nat (i * chunk_size)) (rows src_df)).
Proof. done. Qed.

(** The first [j] chunks, concatenated, are the first [j * chunk_size]
    rows. *)
Lemma concat_chunks_prefix src_df chunk_size (j : nat) :
  1 ≤ chunk_size →
  Z.of_nat j ≤ ceil_div (df_len src_df) chunk_size →
  concat (map rows (map (src_chunk_at src_df chunk_size)
                        (seqZ 0 (Z.of_nat j))))
  = take (Z.to_nat (Z.min (Z.of_nat j * chunk_size) (df_len src_df)))
         (rows src_df).
Proof.
  intros Hc. pose proof (ceil_div_bounds (df_len src_df) chunk_size) as Hk.
  induction j as [|j IH]; intros Hj.
  - simpl. by rewrite Z.min_l by (unfold df_len; lia).
  - rewrite seqZ_S, !map_app, concat_app, IH by lia. simpl.
    rewrite app_nil_r, !Z.add_0_l.
    assert (Z.of_nat j * chunk_size < df_len src_df) as Hlt by nia.
    rewrite (Z.min_l (Z.of_nat j * chunk_size)) by lia.
    rewrite take_take_drop. f_equal. lia.
Qed.

(** The chunks cover the source rows exactly, in order, and none is longer
    than the chunk size. *)
Lemma source_chunks_partition (src_df : DataFrame) (chunk_size : Z) :
  1 ≤ chunk_size →
  concat (map rows (source_chunks src_df chunk_size)) = rows src_df
  ∧ Forall (λ chunk, df_len chunk ≤ chunk_size
                     ∧ columns chunk = columns src_df)
           (source_chunks src_df chunk_size).
Proof.
  intros Hc. unfold source_chunks.
  pose proof (ceil_div_bounds (df_len src_df) chunk_size) as Hk.
  assert (0 ≤ ceil_div (df_len src_df) chunk_size) as Hk0.
  { unfold df_len in *. nia. }
  split.
  - rewrite <-(Z2Nat.id _ Hk0), concat_chunks_prefix by lia.
    apply take_ge. unfold df_len in *. nia.
  - apply Forall_forall. intros chunk [i [-> _]]%list_elem_of_fmap.
    split; [|done].
    unfold df_len at 1. rewrite rows_src_chunk_at, length_take. lia.
Qed.

(** C5. For any chunk size of at least 1, the source chunks, concatenated
    in chunk order, are the rows of the source table, and every chunk has
    the columns of the source and at most [chunk_size] rows. *)
Theorem C5_chunks_partition (src_df : DataFrame) (chunk_size : Z) :
  1 ≤ chunk_size →
  concat (map rows (source_chunks src_df chunk_size)) = rows src_df
  ∧ Forall (λ chunk, df_len chunk ≤ chunk_size
                     ∧ columns chunk = columns src_df)
           (source_chunks src_df chunk_size).
Proof. apply source_chunks_partition. Qed.

Lemma C5_chunks_partition_witness :
  let df := read_blob_to_df (csv "pk,a|1,X|2,Y|3,Z|4,W|5,V") in
  map rows (source_chunks df 2)
  = [take 2 (rows df); take 2 (drop 2 (rows df)); drop 4 (rows df)]
  ∧ concat (map rows (source_chunks df 2)) = rows df.
Proof.
  split; [vm_compute; reflexivity|].
  apply (C5_chunks_partition (read_blob_to_df (csv "pk,a|1,X|2,Y|3,Z|4,W|5,V")) 2).
  lia.
Defined.

(** ** The exception monad *)

#[global] Instance Ok_inj {A} : Inj (=) (=) (@Ok A).
Proof. by intros a b [= ->]. Qed.

Lemma bind_Ok {A B} (m : result A) (k : A → result B) b :
  bind m k = Ok b ↔ ∃ a, m = Ok a ∧ k a = Ok b.
Proof.
  destruct m as [a|e]; simpl.
  - split; [by exists a | by intros (? & [= <-] & ?)].
  - split; [done | by intros (? & ? & ?)].
Qed.

Lemma foldM_app {A B} (f : B → A → result B) acc l1 l2 :
  foldM f acc (l1 ++ l2) = let* acc' := foldM f acc l1 in foldM f acc' l2.
Proof.
  revert acc. induction l1 as [|x l1 IH]; intros acc; simpl; [done|].
  destruct (f acc x); simpl; [apply IH | done].
Qed.

(** A loop whose body computes something from the element alone and then
    updates the accumulator without raising is a [mapM_result] followed by
    a plain fold. *)
Lemma foldM_outcomes {A B C} (g : A → result C) (h : B → C → B) acc l :
  foldM (λ acc x, let* o := g x in Ok (h acc o)) acc l
  = let* os := mapM_result g l in Ok (foldl h acc os).
Proof.
  revert acc. induction l as [|x l IH]; intros acc; simpl; [done|].
  destruct (g x) as [o|e]; simpl; [|done].
  rewrite IH. by destruct (mapM_result g l).
Qed.

Lemma mapM_result_Ok {A B} (f : A → result B) l ys :
  mapM_result f l = Ok ys ↔ Forall2 (λ x y, f x = Ok y) l ys.
Proof.
  revert ys. induction l as [|x l IH]; intros ys; simpl.
  - split; [intros [= <-]; constructor | by inversion 1].
  - rewrite bind_Ok. split.
    + intros (y & Hy & (ys' & Hys & [= <-])%bind_Ok).
      constructor; [done | by apply IH].
    + inversion 1 as [|? y ? ys' Hy Hys]; subst.
      exists y. split; [done|]. apply bind_Ok. exists ys'.
      split; [by apply IH | done].
Qed.

Lemma mapM_result_length {A B} (f : A → result B) l ys :
  mapM_result f l = Ok ys → length ys = length l.
Proof. intros H%mapM_result_Ok. symmetry. by eapply Forall2_length. Qed.

Lemma mapM_result_total {A B} (f : A → result B) l :
  Forall (λ x, ∃ y, f x = Ok y) l → ∃ ys, mapM_result f l = Ok ys.
Proof.
  induction 1 as [|x l [y Hy] _ [ys Hys]]; simpl; [by eexists|].
  rewrite Hy, Hys. by eexists.
Qed.

Lemma mapM_result_app {A B} (f : A → result B) l1 l2 :
  mapM_result f (l1 ++ l2)
  = let* ys1 := mapM_result f l1 in
    let* ys2 := mapM_result f l2 in Ok (ys1 ++ ys2).
Proof.
  induction l1 as [|x l1 IH]; simpl.
  - by destruct (mapM_result f l2).
  - destruct (f x); simpl; [|done]. rewrite IH.
    destruct (mapM_result f l1); simpl; [|done].
    by destruct (mapM_result f l2).
Qed.

(** ** Counting outcomes *)

Lemma count_nil p : count p [] = 0.
Proof. done. Qed.

Lemma count_app p os1 os2 : count p (os1 ++ os2) = count p os1 + count p os2.
Proof. unfold count. rewrite filter_app, length_app. lia. Qed.

Lemma count_cons p o os :
  count p (o :: os) = (if p o then 1 else 0) + count p os.
Proof.
  unfold count. rewrite filter_cons.
  destruct (p o); case_decide; simpl; try done; lia.
Qed.

Lemma count_nonneg p os : 0 ≤ count p os.
Proof. unfold count. lia. Qed.

Lemma count_partition os :
  count is_matched os + count is_missing os + count is_mismatched os
  = Z.of_nat (length os).
Proof.
  induction os as [|o os IH]; [done|].
  rewrite !count_cons. simpl length.
  destruct o as [[]|]; simpl; lia.
Qed.

Lemma count_all_matched os :
  Forall (λ o, o = None) os → 
  count is_matched os = Z.of_nat (length os)
  ∧ count is_missing os = 0 ∧ count is_mismatched os = 0.
Proof.
  induction 1 as [|o os -> _ (IH1 & IH2 & IH3)]; [done|].
  rewrite !count_cons. simpl. lia.
Qed.

(** What the second loop of [compare_chunk] accumulates over a list of
    outcomes. *)
Lemma tally_outcomes acc os :
  diffs (foldl tally acc os) = diffs acc ++ omap id os
  ∧ matched (foldl tally acc os) = matched acc + count is_matched os
  ∧ missing (foldl tally acc os) = missing acc + count is_missing os
  ∧ mismatched (foldl tally acc os) = mismatched acc + count is_mismatched os
  ∧ checked (foldl tally acc os) = checked acc + Z.of_nat (length os).
Proof.
  revert acc. induction os as [|o os IH]; intros acc.
  - simpl. rewrite app_nil_r, !count_nil. repeat split; lia.
  - simpl foldl. destruct (IH (tally acc o)) as (-> & -> & -> & -> & ->).
    rewrite !count_cons. simpl length.
    destruct o as [[]|]; simpl; rewrite <-?app_assoc; repeat split; simpl;
      first [done | lia].
Qed.

Lemma length_omap_outcomes (os : list (option DiffRecord)) :
  Z.of_nat (length (omap id os)) = count is_missing os + count is_mismatched os.
Proof.
  induction os as [|o os IH]; [done|].
  rewrite !count_cons. destruct o as [d|].
  - change (omap id (Some d :: os)) with (d :: omap id os).
    simpl length. destruct d; simpl is_missing; simpl is_mismatched; lia.
  - change (omap id (None :: os)) with (omap id os).
    simpl is_missing; simpl is_mismatched; lia.
Qed.

(** [compare_chunk] tallies the outcomes of its rows. *)
Lemma compare_chunk_outcomes src_chunk tgt_chunk pk_col :
  compare_chunk src_chunk tgt_chunk pk_col
  = let* os := chunk_outcomes src_chunk tgt_chunk pk_col in
    Ok (foldl tally no_result os).
Proof.
  unfold compare_chunk, chunk_outcomes.
  destruct (build_tgt_map tgt_chunk pk_col); simpl; [|done].
  apply foldM_outcomes.
Qed.

Lemma compare_chunk_Ok src_chunk tgt_chunk pk_col res :
  compare_chunk src_chunk tgt_chunk pk_col = Ok res ↔
  ∃ os, chunk_outcomes src_chunk tgt_chunk pk_col = Ok os
        ∧ res = foldl tally no_result os.
Proof.
  rewrite compare_chunk_outcomes, bind_Ok.
  split; intros (os & Hos & Heq); exists os; split; congruence.
Qed.

(** ** The worker pool *)

(** With at least one worker the pool completes every submitted call
    exactly once. *)
Lemma pool_complete_perm {A} (fuel w : nat) (queue running : list A) timing :
  (0 < w)%nat → fuel = (length running + length queue)%nat →
  pool_complete fuel w queue running timing ≡ₚ running ++ queue.
Proof.
  intros Hw. revert queue running timing.
  induction fuel as [|fuel IH]; intros queue running timing Hfuel.
  - destruct running, queue; simpl in *; try lia. done.
  - simpl.
    set (idle := (w - length running)%nat).
    set (running' := running ++ take idle queue).
    assert (running' ++ drop idle queue = running ++ queue) as Hsame.
    { unfold running'. by rewrite <-app_assoc, take_drop. }
    assert (0 < length running')%nat as Hpos.
    { unfold running'. rewrite length_app, length_take.
      destruct running; simpl in *; [|lia].
      subst idle. simpl. lia. }
    destruct (lookup_lt_is_Some_2 running'
                (hd 0 timing mod length running')%nat) as [call Hcall].
    { apply Nat.mod_upper_bound. lia. }
    rewrite Hcall, <-Hsame.
    transitivity (call :: delete (hd 0 timing mod length running')%nat running'
                          ++ drop idle queue).
    + constructor. apply IH.
      apply (f_equal length) in Hsame. rewrite !length_app in Hsame.
      pose proof (length_delete running' _ (mk_is_Some _ _ Hcall)). lia.
    + symmetry. apply (Permutation_app_tail _ (delete_Permutation _ _ _ Hcall)).
Qed.

Lemma as_completed_perm {A} (w : Z) (futures : list A) timing :
  1 ≤ w → as_completed w futures timing ≡ₚ futures.
Proof.
  intros Hw. unfold as_completed.
  rewrite pool_complete_perm; [done | lia | simpl; lia].
Qed.

(** ** Aggregation *)

Lemma sumZ_perm l l' : l ≡ₚ l' → sumZ l = sumZ l'.
Proof. induction 1; simpl; lia. Qed.

Lemma concat_perm {A} (l l' : list (list A)) :
  l ≡ₚ l' → concat l ≡ₚ concat l'.
Proof.
  induction 1 as [|x l l' _ IH|x y l|l l' l'' _ IH1 _ IH2]; simpl.
  - done.
  - by rewrite IH.
  - rewrite !app_assoc. f_equiv. apply Permutation_app_comm.
  - by rewrite IH1.
Qed.

Lemma sumZ_cons x l : sumZ (x :: l) = x + sumZ l.
Proof. done. Qed.

(** What the aggregation loop accumulates over a list of chunk results. *)
Lemma merge_results acc rs :
  diffs (foldl merge acc rs) = diffs acc ++ concat (diffs <$> rs)
  ∧ matched (foldl merge acc rs) = matched acc + sumZ (matched <$> rs)
  ∧ missing (foldl merge acc rs) = missing acc + sumZ (missing <$> rs)
  ∧ mismatched (foldl merge acc rs)
    = mismatched acc + sumZ (mismatched <$> rs)
  ∧ checked (foldl merge acc rs) = checked acc + sumZ (checked <$> rs).
Proof.
  revert acc. induction rs as [|r rs IH]; intros acc.
  - simpl. rewrite app_nil_r. repeat split; lia.
  - simpl foldl. destruct (IH (merge acc r)) as (-> & -> & -> & -> & ->).
    rewrite !fmap_cons, !sumZ_cons. simpl concat. unfold merge.
    cbn [diffs matched missing mismatched checked].
    rewrite <-?app_assoc. repeat split; first [done | lia].
Qed.

Lemma merge_results_perm rs rs' :
  rs ≡ₚ rs' →
  counters (foldl merge no_result rs) = counters (foldl merge no_result rs')
  ∧ diffs (foldl merge no_result rs) ≡ₚ diffs (foldl merge no_result rs').
Proof.
  intros Hperm. unfold counters.
  destruct (merge_results no_result rs) as (-> & -> & -> & -> & ->).
  destruct (merge_results no_result rs') as (-> & -> & -> & -> & ->).
  assert (∀ f : ChunkResult → Z, sumZ (f <$> rs) = sumZ (f <$> rs')) as Hs.
  { intros f. apply sumZ_perm. by rewrite Hperm. }
  split.
  - by rewrite !Hs.
  - simpl. apply concat_perm. by rewrite Hperm.
Qed.

(** The aggregation loop returns exactly when every completed future holds
    a result, and then merges these results in completion order. *)
Lemma collect_Ok completed sums :
  collect completed = Ok sums ↔
  ∃ rs, completed = Ok <$> rs ∧ sums = foldl merge no_result rs.
Proof.
  unfold collect. rewrite foldM_outcomes, bind_Ok.
  split.
  - intros (rs & Hrs & [= <-]). exists rs. split; [|done].
    apply mapM_result_Ok in Hrs.
    induction Hrs as [|f r fs rs Hf _ IH]; [done|].
    rewrite fmap_cons. simpl in Hf. by rewrite Hf, IH.
  - intros (rs & -> & ->). exists rs. split; [|done].
    apply mapM_result_Ok. induction rs; constructor; done.
Qed.

Lemma fmap_Ok_perm_inv (l : list (result ChunkResult)) rs :
  l ≡ₚ Ok <$> rs → ∃ rs', l = Ok <$> rs' ∧ rs' ≡ₚ rs.
Proof.
  intros Hperm.
  assert (Forall (λ f, ∃ r, f = Ok r) l) as Hall.
  { rewrite Hperm. apply Forall_fmap, Forall_true. intros r. by exists r. }
  exists (omap returned l). split.
  - clear Hperm. induction Hall as [|f l [r ->] _ IH]; simpl; [done|].
    by rewrite IH at 1.
  - rewrite Hperm. clear. induction rs as [|r rs IH]; simpl; [done|].
    by constructor.
Qed.

(** The order of completion changes neither whether the aggregation
    returns nor its counters. *)
Lemma collect_perm completed completed' :
  completed ≡ₚ completed' →
  same_outcome (collect completed) (collect completed').
Proof.
  intros Hperm. unfold same_outcome.
  destruct (collect completed) as [a|e] eqn:Ha,
           (collect completed') as [b|e'] eqn:Hb; try done.
  - apply collect_Ok in Ha as (rs & -> & ->).
    apply collect_Ok in Hb as (rs' & -> & ->).
    apply merge_results_perm.
    symmetry in Hperm. apply fmap_Ok_perm_inv in Hperm as (rs'' & Heq & Hp).
    apply (inj (fmap Ok)) in Heq. by subst.
  - apply collect_Ok in Ha as (rs & -> & ->).
    symmetry in Hperm. apply fmap_Ok_perm_inv in Hperm as (rs' & -> & _).
    assert (∃ s, collect (Ok <$> rs') = Ok s) as [s Hs].
    { eexists. apply collect_Ok. by exists rs'. }
    congruence.
  - apply collect_Ok in Hb as (rs & -> & ->).
    apply fmap_Ok_perm_inv in Hperm as (rs' & -> & _).
    assert (∃ s, collect (Ok <$> rs') = Ok s) as [s Hs].
    { eexists. apply collect_Ok. by exists rs'. }
    congruence.
Qed.

(** ** The run *)

Lemma process_parallel_blob_raises host source_blob target_blob pk_col timing :
  pk_col ∉ columns (read_blob_to_df source_blob)
  ∨ pk_col ∉ columns (read_blob_to_df target_blob) →
  process_parallel_blob host source_blob target_blob pk_col timing
  = Raise (KeyError (pk_not_found pk_col)).
Proof.
  intros Habsent. unfold process_parallel_blob.
  destruct Habsent as [H|H]; rewrite (bool_decide_eq_false_2 _ H);
    [done | by rewrite orb_true_r].
Qed.

Lemma process_parallel_blob_runs host source_blob target_blob pk_col timing :
  let src_df := read_blob_to_df source_blob in
  let tgt_df := read_blob_to_df target_blob in
  pk_col ∈ columns src_df → pk_col ∈ columns tgt_df →
  process_parallel_blob host source_blob target_blob pk_col timing
  = let* futures := submit_all src_df tgt_df pk_col (chunk_size_of host src_df) in
    let* sums := collect (as_completed (thread_count_of host src_df)
                                       futures timing) in
    Ok {| total_source := df_len src_df;
          total_target := df_len tgt_df;
          totals := sums;
          content := join_lines (summary (df_len src_df) (df_len tgt_df)
                                   (matched sums) (mismatched sums)) |}.
Proof.
  intros src_df tgt_df Hs Ht. unfold process_parallel_blob.
  fold src_df tgt_df.
  rewrite (bool_decide_eq_true_2 _ Hs), (bool_decide_eq_true_2 _ Ht). simpl.
  unfold chunk_size_of, thread_count_of, run_pool.
  destruct (auto_tune_settings host (df_len src_df)) as [cs w]. simpl.
  by destruct (submit_all src_df tgt_df pk_col cs).
Qed.

Lemma process_parallel_blob_Ok_key host source_blob target_blob pk_col timing
    report :
  process_parallel_blob host source_blob target_blob pk_col timing = Ok report →
  pk_col ∈ columns (read_blob_to_df source_blob)
  ∧ pk_col ∈ columns (read_blob_to_df target_blob).
Proof.
  intros Hrun.
  destruct (decide (pk_col ∈ columns (read_blob_to_df source_blob))) as [|Hs];
    [destruct (decide (pk_col ∈ columns (read_blob_to_df target_blob)))
       as [|Ht]; [done|]|].
  - by rewrite process_parallel_blob_raises in Hrun by (by right).
  - by rewrite process_parallel_blob_raises in Hrun by (by left).
Qed.

Lemma thread_count_of_pos host src_df : 1 ≤ thread_count_of host src_df.
Proof. apply auto_tune_settings_bounds. Qed.

Lemma chunk_size_of_pos host src_df : 1 ≤ chunk_size_of host src_df.
Proof.
  pose proof (auto_tune_settings_bounds host (df_len src_df)) as [H _].
  unfold chunk_size_of. lia.
Qed.

(** Every submitted future is the comparison of a source chunk with its
    target subset. *)
Lemma submit_all_Ok src_df tgt_df pk_col chunk_size futures :
  submit_all src_df tgt_df pk_col chunk_size = Ok futures ↔
  Forall2 (λ src_chunk f,
             ∃ tgt_chunk, target_subset tgt_df src_chunk pk_col = Ok tgt_chunk
                          ∧ f = compare_chunk src_chunk tgt_chunk pk_col)
          (source_chunks src_df chunk_size) futures.
Proof.
  unfold submit_all. rewrite mapM_result_Ok.
  split; intros H; eapply Forall2_impl; [apply H| |apply H|]; intros c f.
  - intros (t & Ht & [= <-])%bind_Ok. by exists t.
  - intros (t & Ht & ->). apply bind_Ok. by exists t.
Qed.

(** *** Outcomes of a run *)

Lemma run_outcomes_Ok src_df tgt_df pk_col chunk_size os :
  run_outcomes src_df tgt_df pk_col chunk_size = Ok os ↔
  ∃ oss,
    Forall2 (λ src_chunk os_c,
               ∃ tgt_chunk,
                 target_subset tgt_df src_chunk pk_col = Ok tgt_chunk
                 ∧ chunk_outcomes src_chunk tgt_chunk pk_col = Ok os_c)
            (source_chunks src_df chunk_size) oss
    ∧ os = concat oss.
Proof.
  unfold run_outcomes. rewrite bind_Ok.
  split.
  - intros (oss & Hoss & [= <-]). exists oss. split; [|done].
    apply mapM_result_Ok in Hoss.
    eapply Forall2_impl; [apply Hoss|]. intros c os_c.
    intros (t & Ht & Hc)%bind_Ok. by exists t.
  - intros (oss & Hoss & ->). exists oss. split; [|done].
    apply mapM_result_Ok.
    eapply Forall2_impl; [apply Hoss|]. intros c os_c (t & Ht & Hc).
    apply bind_Ok. by exists t.
Qed.

Lemma futures_of_outcomes tgt_df pk_col chunks oss :
  Forall2 (λ src_chunk os_c,
             ∃ tgt_chunk,
               target_subset tgt_df src_chunk pk_col = Ok tgt_chunk
               ∧ chunk_outcomes src_chunk tgt_chunk pk_col = Ok os_c)
          chunks oss →
  Forall2 (λ src_chunk f,
             ∃ tgt_chunk,
               target_subset tgt_df src_chunk pk_col = Ok tgt_chunk
               ∧ f = compare_chunk src_chunk tgt_chunk pk_col)
          chunks (Ok <$> (tally_all <$> oss)).
Proof.
  induction 1 as [|c os_c chunks oss (t & Ht & Hc) _ IH]; [constructor|].
  rewrite !fmap_cons. constructor; [|done].
  exists t. split; [done|]. symmetry. apply compare_chunk_Ok. by exists os_c.
Qed.

Lemma outcomes_of_futures tgt_df pk_col chunks rs :
  Forall2 (λ src_chunk f,
             ∃ tgt_chunk,
               target_subset tgt_df src_chunk pk_col = Ok tgt_chunk
               ∧ f = compare_chunk src_chunk tgt_chunk pk_col)
          chunks (Ok <$> rs) →
  ∃ oss,
    Forall2 (λ src_chunk os_c,
               ∃ tgt_chunk,
                 target_subset tgt_df src_chunk pk_col = Ok tgt_chunk
                 ∧ chunk_outcomes src_chunk tgt_chunk pk_col = Ok os_c)
            chunks oss
    ∧ rs = tally_all <$> oss.
Proof.
  revert chunks. induction rs as [|r rs IH]; intros chunks Hall.
  - apply Forall2_nil_inv_r in Hall as ->. by exists [].
  - rewrite fmap_cons in Hall.
    apply Forall2_cons_inv_r in Hall as (c & chunks' & (t & Ht & Hr) & Hall & ->).
    destruct (IH _ Hall) as (oss & Hoss & ->).
    symmetry in Hr. apply compare_chunk_Ok in Hr as (os_c & Hc & ->).
    exists (os_c :: oss). split; [|done].
    constructor; [by exists t | done].
Qed.

(** Summed over the chunks, the counters count the outcomes of all
    rows. *)
Lemma tally_all_sums oss :
  sumZ (matched <$> (tally_all <$> oss)) = count is_matched (concat oss)
  ∧ sumZ (missing <$> (tally_all <$> oss)) = count is_missing (concat oss)
  ∧ sumZ (mismatched <$> (tally_all <$> oss))
    = count is_mismatched (concat oss)
  ∧ sumZ (checked <$> (tally_all <$> oss)) = Z.of_nat (length (concat oss))
  ∧ concat (diffs <$> (tally_all <$> oss)) = omap id (concat oss).
Proof.
  induction oss as [|os oss (IH1 & IH2 & IH3 & IH4 & IH5)]; [done|].
  rewrite !fmap_cons, !sumZ_cons. simpl concat.
  rewrite IH1, IH2, IH3, IH4, IH5, !count_app, length_app, omap_app.
  unfold tally_all.
  destruct (tally_outcomes no_result os) as (-> & -> & -> & -> & ->).
  simpl. repeat split; first [done | lia].
Qed.

Lemma run_outcomes_length src_df tgt_df pk_col chunk_size os :
  1 ≤ chunk_size →
  run_outcomes src_df tgt_df pk_col chunk_size = Ok os →
  length os = length (rows src_df).
Proof.
  intros Hc (oss & Hoss & ->)%run_outcomes_Ok.
  destruct (source_chunks_partition src_df chunk_size Hc) as [<- _].
  induction Hoss as [|c os_c chunks oss (t & _ & Hos) _ IH]; [done|].
  simpl. rewrite !length_app, IH. f_equal.
  unfold chunk_outcomes in Hos.
  apply bind_Ok in Hos as (m & _ & Hos).
  by apply mapM_result_length in Hos.
Qed.

(** A run that returns a report has tallied the outcomes of all source
    rows: its counters count them and its diff list holds their records,
    in some order. *)
Lemma process_parallel_blob_outcomes host source_blob target_blob pk_col
    timing report :
  process_parallel_blob host source_blob target_blob pk_col timing = Ok report →
  ∃ os,
    run_outcomes (read_blob_to_df source_blob) (read_blob_to_df target_blob)
      pk_col (chunk_size_of host (read_blob_to_df source_blob)) = Ok os
    ∧ matched (totals report) = count is_matched os
    ∧ missing (totals report) = count is_missing os
    ∧ mismatched (totals report) = count is_mismatched os
    ∧ checked (totals report) = Z.of_nat (length os)
    ∧ diffs (totals report) ≡ₚ omap id os
    ∧ total_source report = df_len (read_blob_to_df source_blob)
    ∧ total_target report = df_len (read_blob_to_df target_blob).
Proof.
  intros Hrun.
  destruct (process_parallel_blob_Ok_key _ _ _ _ _ _ Hrun) as [Hs Ht].
  rewrite process_parallel_blob_runs in Hrun by done.
  apply bind_Ok in Hrun as (fs & Hfs & Hrun).
  apply bind_Ok in Hrun as (sums & Hsums & [= <-]).
  apply collect_Ok in Hsums as (rs & Hcompleted & ->).
  pose proof (as_completed_perm (thread_count_of host (read_blob_to_df source_blob))
                fs timing (thread_count_of_pos _ _)) as Hperm.
  rewrite Hcompleted in Hperm. symmetry in Hperm.
  apply fmap_Ok_perm_inv in Hperm as (rs' & -> & Hperm).
  apply submit_all_Ok, outcomes_of_futures in Hfs as (oss & Hoss & ->).
  exists (concat oss). split.
  { apply run_outcomes_Ok. by exists oss. }
  destruct (merge_results_perm _ _ Hperm) as [Hcounters Hdiffs].
  unfold counters in Hcounters. cbn [totals total_source total_target].
  destruct (merge_results no_result (tally_all <$> oss))
    as (Hd & Hm & Hmi & Hmm & Hch).
  destruct (tally_all_sums oss) as (Sm & Smi & Smm & Sch & Sd).
  rewrite Hd, Hm, Hmi, Hmm, Hch, Sm, Smi, Smm, Sch, Sd in *.
  simpl in Hcounters, Hdiffs.
  injection Hcounters as E1 E2 E3 E4.
  rewrite <-E1, <-E2, <-E3, <-E4, <-Hdiffs.
  repeat split; first [done | lia].
Qed.

(** A run returns a report once no chunk raises. *)
Lemma process_parallel_blob_returns host source_blob target_blob pk_col
    timing os :
  pk_col ∈ columns (read_blob_to_df source_blob) →
  pk_col ∈ columns (read_blob_to_df target_blob) →
  run_outcomes (read_blob_to_df source_blob) (read_blob_to_df target_blob)
    pk_col (chunk_size_of host (read_blob_to_df source_blob)) = Ok os →
  ∃ report,
    process_parallel_blob host source_blob target_blob pk_col timing
    = Ok report.
Proof.
  intros Hs Ht (oss & Hoss & ->)%run_outcomes_Ok.
  rewrite process_parallel_blob_runs by done.
  apply futures_of_outcomes, submit_all_Ok in Hoss. rewrite Hoss. simpl.
  pose proof (as_completed_perm (thread_count_of host (read_blob_to_df source_blob))
                (Ok <$> (tally_all <$> oss)) timing
                (thread_count_of_pos _ _)) as Hperm.
  apply fmap_Ok_perm_inv in Hperm as (rs & -> & _).
  assert (collect (Ok <$> rs) = Ok (foldl merge no_result rs)) as ->.
  { apply collect_Ok. by exists rs. }
  simpl. by eexists.
Qed.

(** *** The counters of a chunk result *)

Lemma compare_chunk_counters src_chunk tgt_chunk pk_col res :
  compare_chunk src_chunk tgt_chunk pk_col = Ok res →
  checked res = matched res + missing res + mismatched res
  ∧ Z.of_nat (length (diffs res)) = missing res + mismatched res
  ∧ checked res = df_len src_chunk.
Proof.
  intros (os & Hos & ->)%compare_chunk_Ok.
  destruct (tally_outcomes no_result os) as (-> & -> & -> & -> & ->).
  simpl. rewrite length_omap_outcomes.
  pose proof (count_partition os).
  unfold chunk_outcomes in Hos. apply bind_Ok in Hos as (m & _ & Hos).
  apply mapM_result_length in Hos. unfold df_len. lia.
Qed.

(** ** Rectangular frames never raise *)

Lemma getitem_Ok cols row col :
  length row = length cols → col ∈ cols →
  ∃ v, getitem cols row col = Ok v ∧ v ∈ row.
Proof.
  revert row. induction cols as [|c cols IH]; intros [|v row] Hlen Hin;
    simpl in *; try done.
  - by apply elem_of_nil in Hin.
  - destruct (decide (c = col)) as [->|Hne].
    + exists v. split; [done | left].
    + apply elem_of_cons in Hin as [->|Hin]; [done|].
      destruct (IH row) as (v' & Hv' & Hin'); [lia | done |].
      exists v'. split; [done | by right].
Qed.

Lemma getitem_cell cols row col v :
  getitem cols row col = Ok v → cell cols row col = v.
Proof. unfold cell. by intros ->. Qed.

Lemma getitem_Ok_cell cols row col :
  length row = length cols → col ∈ cols →
  getitem cols row col = Ok (cell cols row col).
Proof.
  intros Hlen Hin. destruct (getitem_Ok cols row col Hlen Hin) as (v & Hv & _).
  by rewrite (getitem_cell _ _ _ _ Hv).
Qed.

Lemma cell_elem_of cols row col :
  length row = length cols → col ∈ cols → cell cols row col ∈ row.
Proof.
  intros Hlen Hin. destruct (getitem_Ok cols row col Hlen Hin) as (v & Hv & ?).
  by rewrite (getitem_cell _ _ _ _ Hv).
Qed.

Lemma getcolumn_Ok df col :
  rectangular df → col ∈ columns df →
  getcolumn df col = Ok (map (λ row, cell (columns df) row col) (rows df)).
Proof.
  intros Hrect Hin. unfold getcolumn. rewrite decide_True by done.
  apply mapM_result_Ok. unfold rectangular in Hrect.
  induction Hrect as [|row rws Hlen _ IH]; simpl; constructor; [|done].
  by apply getitem_Ok_cell.
Qed.

Lemma mask_rows_filter df (p : list value → bool) :
  rows (mask_rows df (map p (rows df)))
  = filter (λ row, p row = true) (rows df).
Proof.
  unfold mask_rows. simpl. generalize (rows df) as rws.
  induction rws as [|row rws IH]; [done|].
  simpl. rewrite !filter_cons. simpl.
  destruct (decide (p row = true)); [rewrite fmap_cons|]; by rewrite IH.
Qed.

(** On rectangular frames holding the key column, the target subset of a
    chunk is the target rows whose raw key is the raw key of some row of
    the chunk. *)
Lemma target_subset_Ok tgt_df src_chunk pk_col :
  rectangular tgt_df → pk_col ∈ columns tgt_df →
  rectangular src_chunk → pk_col ∈ columns src_chunk →
  ∃ tgt_chunk,
    target_subset tgt_df src_chunk pk_col = Ok tgt_chunk
    ∧ columns tgt_chunk = columns tgt_df
    ∧ rows tgt_chunk
      = filter (λ row, cell (columns tgt_df) row pk_col
                       ∈ raw_keys src_chunk pk_col)
               (rows tgt_df).
Proof.
  intros Ht Hpkt Hs Hpks. unfold target_subset.
  rewrite (getcolumn_Ok tgt_df) by done.
  rewrite (getcolumn_Ok src_chunk) by done. simpl.
  fold (raw_keys src_chunk pk_col).
  eexists. split; [done|]. split; [done|].
  rewrite map_map.
  rewrite (mask_rows_filter tgt_df
             (λ row, isin (raw_keys src_chunk pk_col)
                          (cell (columns tgt_df) row pk_col))).
  apply list_filter_iff. intros row. unfold isin.
  by rewrite bool_decide_eq_true.
Qed.

Lemma rectangular_filter df (P : list value → Prop) `{∀ r, Decision (P r)}
    rws :
  rectangular df → rws = filter P (rows df) →
  rectangular {| columns := columns df; rows := rws |}.
Proof.
  intros Hrect ->. unfold rectangular in *. simpl.
  apply Forall_forall. intros row [_ Hin]%list_elem_of_filter.
  by eapply Forall_forall in Hrect.
Qed.

Lemma rectangular_src_chunk_at src_df chunk_size i :
  rectangular src_df → rectangular (src_chunk_at src_df chunk_size i).
Proof.
  unfold rectangular, src_chunk_at, iloc. simpl. intros Hrect.
  by apply Forall_take, Forall_drop.
Qed.

Lemma source_chunks_elem src_df chunk_size chunk :
  chunk ∈ source_chunks src_df chunk_size →
  columns chunk = columns src_df
  ∧ (rectangular src_df → rectangular chunk)
  ∧ ∀ row, row ∈ rows chunk → row ∈ rows src_df.
Proof.
  unfold source_chunks. intros [i [-> _]]%list_elem_of_fmap.
  split; [done|]. split; [apply rectangular_src_chunk_at|].
  intros row Hin. simpl in Hin.
  by apply subseteq_take, subseteq_drop in Hin.
Qed.

Lemma read_blob_to_df_columns blob :
  columns (read_blob_to_df blob) = header blob.
Proof. done. Qed.

Lemma read_blob_to_df_rectangular blob :
  Csv_rectangular blob → rectangular (read_blob_to_df blob).
Proof.
  unfold Csv_rectangular, rectangular. simpl. intros Hrect.
  rewrite !Forall_map. eapply Forall_impl; [apply Hrect|].
  intros record Hlen. simpl. by rewrite !length_map.
Qed.

(** *** The target map *)

Lemma normalized_row_fold (cols : list pystr) (row : list value)
    (l : list pystr)
    (d0 : gmap pystr pystr) :
  length row = length cols → l ⊆ cols →
  ∃ d,
    foldM (λ d col, let* v := getitem cols row col in
                    Ok (<[col := normalize v]> d)) d0 l = Ok d
    ∧ ∀ c, d !! c = if decide (c ∈ l)
                    then Some (normalize (cell cols row c)) else d0 !! c.
Proof.
  intros Hlen. revert d0. induction l as [|x l IH]; intros d0 Hsub.
  - exists d0. split; [done|]. intros c. rewrite decide_False; [done|].
    apply not_elem_of_nil.
  - simpl. rewrite getitem_Ok_cell by (done || apply Hsub; left). simpl.
    destruct (IH (<[x := normalize (cell cols row x)]> d0)) as (d & -> & Hd);
      [set_solver|].
    exists d. split; [done|]. intros c. rewrite Hd.
    destruct (decide (c ∈ l)) as [Hin|Hnin].
    + rewrite decide_True by set_solver. done.
    + destruct (decide (x = c)) as [->|Hne].
      * rewrite lookup_insert_eq, decide_True by left. done.
      * rewrite lookup_insert_ne by done. rewrite decide_False; [done|].
        by intros [->|?]%elem_of_cons.
Qed.

(** The normalized copy of a target row answers [get(col, "")] with the
    normalized cell of a column it has and [""] otherwise. *)
Lemma normalized_row_Ok (cols : list pystr) (row : list value) :
  length row = length cols →
  ∃ d, normalized_row cols row = Ok d
       ∧ ∀ c, default [] (d !! c) = target_cell cols row c.
Proof.
  intros Hlen.
  destruct (normalized_row_fold cols row cols ∅ Hlen) as (d & Hd & Hlook);
    [done|].
  exists d. split; [done|]. intros c. rewrite Hlook. unfold target_cell.
  destruct (decide (c ∈ cols)); [done|]. by rewrite lookup_empty.
Qed.

Lemma build_tgt_map_fold (cols : list pystr) (pk_col : pystr)
    (rws : list (list value)) (m0 : gmap pystr (gmap pystr pystr)) :
  Forall (λ row, length row = length cols) rws → pk_col ∈ cols →
  ∃ m,
    foldM (λ tgt_map row,
             let* k := getitem cols row pk_col in
             let pk := normalize k in
             let* d := normalized_row cols row in
             Ok (<[pk := d]> tgt_map)) m0 rws = Ok m
    ∧ ∀ k,
        (m !! k = m0 !! k
         ∧ ∀ row, row ∈ rws → normalized_key cols pk_col row ≠ k)
        ∨ (∃ row d, row ∈ rws ∧ normalized_key cols pk_col row = k
                    ∧ normalized_row cols row = Ok d ∧ m !! k = Some d).
Proof.
  intros Hrect Hpk. revert m0.
  induction Hrect as [|x rws Hlen _ IH]; intros m0.
  - exists m0. split; [done|]. intros k. left. split; [done|].
    intros row Hin. by apply elem_of_nil in Hin.
  - simpl. rewrite getitem_Ok_cell by done. simpl.
    destruct (normalized_row_Ok cols x Hlen) as (dx & Hdx & _).
    rewrite Hdx. simpl.
    destruct (IH (<[normalize (cell cols x pk_col) := dx]> m0))
      as (m & Hfold & Hm).
    exists m. split; [exact Hfold|]. intros k.
    destruct (Hm k) as [[Hk Hnone]|(row & d & Hin & Hkey & Hd & Hk)].
    + destruct (decide (normalized_key cols pk_col x = k)) as [Heq|Hne].
      * right. exists x, dx. split; [left|]. split; [done|]. split; [done|].
        rewrite Hk. unfold normalized_key in Heq. rewrite <-Heq.
        apply lookup_insert_eq.
      * left. split.
        -- rewrite Hk. by apply lookup_insert_ne.
        -- intros row [->|Hin]%elem_of_cons; [done | by apply Hnone].
    + right. exists row, d. split; [by right | done].
Qed.

(** [tgt_map] holds, under each normalized key that occurs in the target
    chunk, the normalized copy of a target row with that key, and nothing
    under any other key. *)
Lemma build_tgt_map_Ok tgt_chunk pk_col :
  rectangular tgt_chunk → pk_col ∈ columns tgt_chunk →
  ∃ m,
    build_tgt_map tgt_chunk pk_col = Ok m
    ∧ ∀ k,
        (m !! k = None
         ∧ ∀ row, row ∈ rows tgt_chunk →
                  normalized_key (columns tgt_chunk) pk_col row ≠ k)
        ∨ (∃ row d, row ∈ rows tgt_chunk
                    ∧ normalized_key (columns tgt_chunk) pk_col row = k
                    ∧ normalized_row (columns tgt_chunk) row = Ok d
                    ∧ m !! k = Some d).
Proof.
  intros Hrect Hpk. unfold build_tgt_map.
  destruct (build_tgt_map_fold (columns tgt_chunk) pk_col (rows tgt_chunk) ∅
              Hrect Hpk) as (m & Hm & Hspec).
  destruct (df_empty tgt_chunk) eqn:Hempty.
  - exists ∅. split; [done|]. intros k. left. split; [apply lookup_empty|].
    unfold df_empty in Hempty.
    destruct (rows tgt_chunk) as [|r rws] eqn:Hrows.
    + intros row Hin. by apply elem_of_nil in Hin.
    + destruct (columns tgt_chunk); [by apply elem_of_nil in Hpk | done].
  - exists m. split; [done|]. intros k.
    destruct (Hspec k) as [[Hk Hnone]|?]; [left | by right].
    by rewrite Hk, lookup_empty.
Qed.

(** *** One source row *)

Lemma dict_set_not_nil {V} (d : list (pystr * V)) k v : dict_set d k v ≠ [].
Proof. destruct d as [|[k' v'] d]; simpl; [done|]. by case_decide. Qed.

Lemma row_mismatch_fold (cols : list pystr) (pk_col : pystr)
    (row : list value) (d : gmap pystr pystr) (l : list pystr)
    (acc : list (pystr * (pystr * pystr))) :
  length row = length cols → l ⊆ cols →
  ∃ mm,
    foldM (λ mismatch col,
             if decide (col = pk_col) then Ok mismatch
             else
               let* v := getitem cols row col in
               let tgt := default [] (d !! col) in
               if decide (normalize v ≠ tgt)
               then Ok (dict_set mismatch col (normalize v, tgt))
               else Ok mismatch) acc l = Ok mm
    ∧ (mm = [] ↔
       acc = [] ∧ ∀ c, c ∈ l → c ≠ pk_col →
                       normalize (cell cols row c) = default [] (d !! c)).
Proof.
  intros Hlen. revert acc. induction l as [|x l IH]; intros acc Hsub.
  - exists acc. split; [done|]. split; [|by intros [-> _]].
    intros ->. split; [done|]. intros c Hin. by apply elem_of_nil in Hin.
  - simpl. destruct (decide (x = pk_col)) as [->|Hne].
    + simpl. destruct (IH acc) as (mm & Hfold & Hmm); [set_solver|].
      exists mm. split; [exact Hfold|]. rewrite Hmm. split.
      * intros [-> Hall]. split; [done|].
        intros c [->|Hin]%elem_of_cons Hc; [done | by apply Hall].
      * intros [-> Hall]. split; [done|]. intros c Hin. apply Hall. by right.
    + rewrite getitem_Ok_cell by (done || set_solver). simpl.
      destruct (decide (normalize (cell cols row x) ≠ default [] (d !! x)))
        as [Hdiff|Hsame].
      * destruct (IH (dict_set acc x (normalize (cell cols row x),
                                      default [] (d !! x))))
          as (mm & Hfold & Hmm); [set_solver|].
        exists mm. split; [exact Hfold|]. rewrite Hmm. split.
        -- intros [Hnil _]. by apply dict_set_not_nil in Hnil.
        -- intros [_ Hall]. destruct Hdiff. apply Hall; [left | done].
      * apply dec_stable in Hsame.
        destruct (IH acc) as (mm & Hfold & Hmm); [set_solver|].
        exists mm. split; [exact Hfold|]. rewrite Hmm. split.
        -- intros [-> Hall]. split; [done|].
           intros c [->|Hin]%elem_of_cons Hc; [done | by apply Hall].
        -- intros [-> Hall]. split; [done|]. intros c Hin. apply Hall.
           by right.
Qed.

Lemma row_mismatch_Ok (cols : list pystr) (pk_col : pystr)
    (row : list value) (d : gmap pystr pystr) :
  length row = length cols →
  ∃ mm,
    row_mismatch cols pk_col row d = Ok mm
    ∧ (mm = [] ↔
       ∀ c, c ∈ cols → c ≠ pk_col →
            normalize (cell cols row c) = default [] (d !! c)).
Proof.
  intros Hlen.
  destruct (row_mismatch_fold cols pk_col row d cols [] Hlen)
    as (mm & Hmm & Hnil); [done|].
  exists mm. split; [exact Hmm|]. rewrite Hnil.
  split; [by intros [_ ?] | by intros ?].
Qed.

(** What the loop body decides for a source row: missing when [tgt_map]
    has no entry for its normalized key; otherwise matched exactly when
    every non-key column agrees, normalized, with the entry. *)
Lemma compare_row_Ok (m : gmap pystr (gmap pystr pystr)) (cols : list pystr)
    (pk_col : pystr) (row : list value) :
  length row = length cols → pk_col ∈ cols →
  ∃ o,
    compare_row m cols pk_col row = Ok o
    ∧ match m !! normalized_key cols pk_col row with
      | None => o = Some (MISSING_IN_TARGET (normalized_key cols pk_col row))
      | Some d =>
          (o = None ↔
           ∀ c, c ∈ cols → c ≠ pk_col →
                normalize (cell cols row c) = default [] (d !! c))
          ∧ (o = None
             ∨ ∃ mm, o = Some (MISMATCH (normalized_key cols pk_col row) mm))
      end.
Proof.
  intros Hlen Hpk. unfold compare_row.
  rewrite getitem_Ok_cell by done. simpl.
  fold (normalized_key cols pk_col row).
  destruct (m !! normalized_key cols pk_col row) as [d|]; [|by eexists].
  destruct (row_mismatch_Ok cols pk_col row d Hlen) as (mm & Hmm & Hnil).
  rewrite Hmm. simpl.
  destruct mm as [|entry mm].
  - exists None. split; [done|]. split; [|by left].
    split; [|done]. intros _. by apply Hnil.
  - eexists. split; [done|]. split; [|right; by eexists].
    split; [done|]. intros Hall. by apply Hnil in Hall.
Qed.

(** *** The rows of a run *)

Lemma mapM_result_Forall2 {A B} (f : A → result B) (R : A → B → Prop) l :
  (∀ x, x ∈ l → ∃ y, f x = Ok y ∧ R x y) →
  ∃ ys, mapM_result f l = Ok ys ∧ Forall2 R l ys.
Proof.
  induction l as [|x l IH]; intros Hall; simpl.
  - exists []. by split.
  - destruct (Hall x) as (y & -> & Hy); [left|].
    destruct IH as (ys & -> & Hys).
    { intros x' Hin. apply Hall. by right. }
    exists (y :: ys). split; [done | by constructor].
Qed.

(** Within a chunk, a source row that agrees with the target matches and
    one that is absent from the target is missing. *)
Lemma compare_row_in_chunk src_df tgt_df pk_col src_chunk tgt_chunk m row :
  rectangular tgt_df → pk_col ∈ columns tgt_df →
  rectangular src_chunk → columns src_chunk = columns src_df →
  pk_col ∈ columns src_df →
  target_subset tgt_df src_chunk pk_col = Ok tgt_chunk →
  build_tgt_map tgt_chunk pk_col = Ok m →
  row ∈ rows src_chunk →
  ∃ o, compare_row m (columns src_chunk) pk_col row = Ok o
       ∧ row_outcome_ok src_df tgt_df pk_col row o.
Proof.
  intros Ht Hpkt Hs Hcols Hpks Hsub Hm Hrow.
  assert (pk_col ∈ columns src_chunk) as Hpkc by (by rewrite Hcols).
  destruct (target_subset_Ok tgt_df src_chunk pk_col Ht Hpkt Hs Hpkc)
    as (tgt_chunk' & Hsub' & Htcols & Htrows).
  rewrite Hsub in Hsub'. injection Hsub' as <-.
  assert (rectangular tgt_chunk) as Htc.
  { destruct tgt_chunk as [tc tr]. simpl in *. subst tc.
    by eapply rectangular_filter. }
  destruct (build_tgt_map_Ok tgt_chunk pk_col Htc) as (m' & Hm' & Hspec);
    [by rewrite Htcols|].
  rewrite Hm in Hm'. injection Hm' as <-.
  assert (length row = length (columns src_chunk)) as Hlen.
  { by eapply Forall_forall in Hs. }
  destruct (compare_row_Ok m (columns src_chunk) pk_col row Hlen Hpkc)
    as (o & Ho & Hmatch).
  exists o. split; [done|]. rewrite Hcols, Htcols in *.
  set (k := normalized_key (columns src_df) pk_col row) in *.
  destruct (Hspec k) as [[Hk Hnone]|(t & d & Hin & Hkey & Hd & Hk)];
    rewrite Hk in Hmatch.
  - split; [|done]. intros [(t & Hin & Hraw) _]. exfalso.
    apply (Hnone t).
    + rewrite Htrows. apply list_elem_of_filter. split; [|done].
      rewrite Hraw. unfold raw_keys. rewrite Hcols.
      by apply (list_elem_of_fmap_2 (λ r, cell (columns src_df) r pk_col)).
    + unfold k, normalized_key. by rewrite Hraw.
  - rewrite Htrows in Hin. apply list_elem_of_filter in Hin as [_ Hin].
    split.
    + intros [_ Hagree]. apply Hmatch. intros c Hc Hne.
      destruct (normalized_row_Ok (columns tgt_df) t) as (d' & Hd' & Hget).
      { by eapply Forall_forall in Ht. }
      rewrite Hd in Hd'. injection Hd' as <-. rewrite Hget.
      by apply Hagree.
    + intros Habsent. by destruct (Habsent t).
Qed.

Lemma chunk_rows_outcomes src_df tgt_df pk_col chunk_size src_chunk :
  rectangular src_df → pk_col ∈ columns src_df →
  rectangular tgt_df → pk_col ∈ columns tgt_df →
  src_chunk ∈ source_chunks src_df chunk_size →
  ∃ os_c,
    (∃ tgt_chunk,
       target_subset tgt_df src_chunk pk_col = Ok tgt_chunk
       ∧ chunk_outcomes src_chunk tgt_chunk pk_col = Ok os_c)
    ∧ Forall2 (row_outcome_ok src_df tgt_df pk_col) (rows src_chunk) os_c.
Proof.
  intros Hs Hpks Ht Hpkt Hin.
  destruct (source_chunks_elem _ _ _ Hin) as (Hcols & Hrect & _).
  specialize (Hrect Hs).
  destruct (target_subset_Ok tgt_df src_chunk pk_col Ht Hpkt Hrect)
    as (tgt_chunk & Hsub & Htcols & Htrows); [by rewrite Hcols|].
  assert (rectangular tgt_chunk) as Htc.
  { destruct tgt_chunk as [tc tr]. simpl in *. subst tc.
    by eapply rectangular_filter. }
  destruct (build_tgt_map_Ok tgt_chunk pk_col Htc) as (m & Hm & _);
    [by rewrite Htcols|].
  destruct (mapM_result_Forall2
              (compare_row m (columns src_chunk) pk_col)
              (row_outcome_ok src_df tgt_df pk_col) (rows src_chunk))
    as (os_c & Hos & Hall).
  { intros row Hrow. by eapply compare_row_in_chunk. }
  exists os_c. split; [|done]. exists tgt_chunk. split; [done|].
  unfold chunk_outcomes. by rewrite Hm.
Qed.

Lemma Forall2_concat {A B} (R : A → B → Prop) ls ks :
  Forall2 (Forall2 R) ls ks → Forall2 R (concat ls) (concat ks).
Proof.
  induction 1; simpl; [constructor | by apply Forall2_app].
Qed.

(** On rectangular tables that hold the key column no chunk raises, and
    every source row gets the outcome it is owed. *)
Lemma run_rows_outcomes src_df tgt_df pk_col chunk_size :
  rectangular src_df → pk_col ∈ columns src_df →
  rectangular tgt_df → pk_col ∈ columns tgt_df →
  1 ≤ chunk_size →
  ∃ os,
    run_outcomes src_df tgt_df pk_col chunk_size = Ok os
    ∧ Forall2 (row_outcome_ok src_df tgt_df pk_col) (rows src_df) os.
Proof.
  intros Hs Hpks Ht Hpkt Hc.
  assert (∃ oss,
            Forall2 (λ src_chunk os_c,
                       (∃ tgt_chunk,
                          target_subset tgt_df src_chunk pk_col = Ok tgt_chunk
                          ∧ chunk_outcomes src_chunk tgt_chunk pk_col
                            = Ok os_c)
                       ∧ Forall2 (row_outcome_ok src_df tgt_df pk_col)
                                 (rows src_chunk) os_c)
                    (source_chunks src_df chunk_size) oss) as [oss Hoss].
  { pose proof (chunk_rows_outcomes src_df tgt_df pk_col chunk_size) as Hchunk.
    induction (source_chunks src_df chunk_size) as [|c l IH].
    - exists []. constructor.
    - destruct (Hchunk c) as (os_c & Hc1 & Hc2); [done..|left|].
      destruct IH as [oss Hoss].
      { intros c' ???? Hin. apply Hchunk; [done..|by right]. }
      exists (os_c :: oss). by constructor. }
  exists (concat oss). split.
  - apply run_outcomes_Ok. exists oss. split; [|done].
    eapply Forall2_impl; [apply Hoss|]. by intros c os_c [? _].
  - destruct (source_chunks_partition src_df chunk_size Hc) as [<- _].
    apply Forall2_concat, Forall2_fmap_l.
    eapply Forall2_impl; [apply Hoss|]. by intros c os_c [_ ?].
Qed.

(** ** C6: workers and completion order *)

(** The chunk size depends on the row count and the memory, not on the
    cores. *)
Lemma chunk_size_of_cores cores1 cores2 mem src_df :
  chunk_size_of (host_with cores1 mem) src_df
  = chunk_size_of (host_with cores2 mem) src_df.
Proof.
  unfold chunk_size_of, auto_tune_settings, low_memory, host_with.
  cbn [mem_available].
  destruct (df_len src_df <=? 100000), (df_len src_df <=? 1000000),
    (mem <? 4 * 1024 ^ 3); reflexivity.
Qed.

Lemma collect_as_completed w1 w2 futures timing1 timing2 :
  1 ≤ w1 → 1 ≤ w2 →
  same_outcome (collect (as_completed w1 futures timing1))
               (collect (as_completed w2 futures timing2)).
Proof.
  intros H1 H2. apply collect_perm.
  by rewrite !as_completed_perm.
Qed.

Lemma run_pool_workers src_df tgt_df pk_col chunk_size w1 w2 timing1 timing2 :
  1 ≤ w1 → 1 ≤ w2 →
  same_outcome (run_pool src_df tgt_df pk_col chunk_size w1 timing1)
               (run_pool src_df tgt_df pk_col chunk_size w2 timing2).
Proof.
  intros H1 H2. unfold run_pool.
  destruct (submit_all src_df tgt_df pk_col chunk_size) as [fs|e]; simpl;
    [by apply collect_as_completed | done].
Qed.

(** C6. For the same tables, key column and chunk size, the pool block run
    with any two worker counts (of at least 1) and any two timings (hence
    any completion orders) raises in both runs or returns in both, with
    the same four counters and the same diff records up to order.  So two
    runs on the same input tables with the same available memory, on
    hosts with any core counts and with any timings, both raise or both
    return reports with the same counters, row counts and summary text,
    and the same diff records up to order. *)
Theorem C6_workers_and_order_irrelevant :
  (∀ (src_df tgt_df : DataFrame) (pk_col : pystr) (chunk_size w1 w2 : Z)
     (timing1 timing2 : list nat),
     1 ≤ w1 → 1 ≤ w2 →
     same_outcome (run_pool src_df tgt_df pk_col chunk_size w1 timing1)
                  (run_pool src_df tgt_df pk_col chunk_size w2 timing2))
  ∧ (∀ (cores1 cores2 : option N) (mem : Z) (source_blob target_blob : Csv)
       (pk_col : pystr) (timing1 timing2 : list nat),
       same_report
         (process_parallel_blob (host_with cores1 mem) source_blob
            target_blob pk_col timing1)
         (process_parallel_blob (host_with cores2 mem) source_blob
            target_blob pk_col timing2)).
Proof.
  split; [apply run_pool_workers|].
  intros cores1 cores2 mem source_blob target_blob pk_col timing1 timing2.
  destruct (decide (pk_col ∈ columns (read_blob_to_df source_blob)
                    ∧ pk_col ∈ columns (read_blob_to_df target_blob)))
    as [[Hs Ht]|Habsent].
  - rewrite !process_parallel_blob_runs by done.
    rewrite (chunk_size_of_cores cores1 cores2).
    destruct (submit_all _ _ _ _) as [fs|e]; simpl; [|done].
    pose proof (collect_as_completed
                  (thread_count_of (host_with cores1 mem)
                     (read_blob_to_df source_blob))
                  (thread_count_of (host_with cores2 mem)
                     (read_blob_to_df source_blob))
                  fs timing1 timing2
                  (thread_count_of_pos _ _) (thread_count_of_pos _ _)) as Hsame.
    unfold same_outcome in Hsame.
    destruct (collect (as_completed _ fs timing1)) as [a|],
             (collect (as_completed _ fs timing2)) as [b|]; simpl; try done.
    destruct Hsame as [Hc Hd]. unfold counters in *.
    injection Hc as E1 E2 E3 E4.
    repeat split; try done; by rewrite ?E1, ?E2, ?E3, ?E4.
  - apply not_and_l in Habsent.
    by rewrite !process_parallel_blob_raises by done.
Qed.

(** Three chunks of one row each: one worker completes them in submission
    order, three workers may complete the last chunk first; the diff
    records change order, the counters do not. *)
Lemma C6_workers_and_order_irrelevant_witness :
  let src_df := read_blob_to_df (csv "pk,a|1,X|2,Y|3,Z") in
  let tgt_df := read_blob_to_df (csv "pk,a|1,X|3,W") in
  run_pool src_df tgt_df (py "pk") 1 1 []
  = Ok {| diffs := [MISSING_IN_TARGET (py "2");
                    MISMATCH (py "3") [(py "a", (py "Z", py "W"))]];
          matched := 1; missing := 1; mismatched := 1; checked := 3 |}
  ∧ run_pool src_df tgt_df (py "pk") 1 3 [2%nat; 1%nat]
    = Ok {| diffs := [MISMATCH (py "3") [(py "a", (py "Z", py "W"))];
                      MISSING_IN_TARGET (py "2")];
            matched := 1; missing := 1; mismatched := 1; checked := 3 |}
  ∧ same_outcome (run_pool src_df tgt_df (py "pk") 1 1 [])
                 (run_pool src_df tgt_df (py "pk") 1 3 [2%nat; 1%nat]).
Proof.
  split; [vm_compute; reflexivity|]. split; [vm_compute; reflexivity|].
  apply (proj1 C6_workers_and_order_irrelevant); lia.
Defined.

Example worker_counts_vary :
  let df := read_blob_to_df (csv "pk,a|1,X|2,Y|3,Z") in
  thread_count_of (host_with (Some 1%N) (8 * 1024 ^ 3)) df = 1
  ∧ thread_count_of (host_with (Some 8%N) (8 * 1024 ^ 3)) df = 6
  ∧ thread_count_of (host_with None (8 * 1024 ^ 3)) df = 1.
Proof. repeat split; vm_compute; reflexivity. Qed.

(** ** C4: the key column check *)

(** C4, amended. When the key column is absent from the source table, the
    target table or both, the run raises a [KeyError] whose message names
    the column (and only says it is absent from one of the files); no
    report, hence no counter, is produced. *)
Theorem C4_key_column_absent (host : Host) (source_blob target_blob : Csv)
    (pk_col : pystr) (timing : list nat) :
  pk_col ∉ header source_blob ∨ pk_col ∉ header target_blob →
  process_parallel_blob host source_blob target_blob pk_col timing
  = Raise (KeyError (py "Primary key '" ++ pk_col
                     ++ py "' not found in one of the files"))
  ∧ returned (process_parallel_blob host source_blob target_blob pk_col timing)
    = None.
Proof.
  intros Habsent.
  by rewrite process_parallel_blob_raises.
Qed.

Lemma C4_key_column_absent_witness :
  process_parallel_blob host8 (csv "id,a|1,X") (csv "pk,a|1,X") (py "pk") []
  = Raise (KeyError (py "Primary key 'pk' not found in one of the files")).
Proof.
  apply (C4_key_column_absent host8 (csv "id,a|1,X") (csv "pk,a|1,X")
           (py "pk") []).
  left. apply (bool_decide_eq_false_1 (py "pk" ∈ header (csv "id,a|1,X"))).
  vm_compute. reflexivity.
Defined.

(** The error raised when only the source lacks the key column is the
    error raised when only the target lacks it: it does not tell which
    table lacks the column. *)
Lemma C4_counterexample :
  process_parallel_blob host8 (csv "id,a|1,X") (csv "pk,a|1,X") (py "pk") []
  = Raise (KeyError (py "Primary key 'pk' not found in one of the files"))
  ∧ process_parallel_blob host8 (csv "pk,a|1,X") (csv "id,a|1,X") (py "pk") []
    = Raise (KeyError (py "Primary key 'pk' not found in one of the files")).
Proof. split; vm_compute; reflexivity. Qed.

(** ** C10: loading *)


Lemma read_blob_to_df_rows blob :
  rows (read_blob_to_df blob)
  = map (map (λ field, match field with
                       | Some s => VStr (PyStr.strip s)
                       | None => VStr []
                       end)) (records blob).
Proof.
  unfold read_blob_to_df, fillna, applymap, read_csv. simpl.
  rewrite !map_map. apply map_ext. intros record.
  rewrite !map_map. apply map_ext. by intros [s|].
Qed.






(** ** Runs on rectangular tables *)

(** A run on rectangular tables that hold the key column returns a
    report. *)
Lemma process_parallel_blob_total host source_blob target_blob pk_col timing :
  Csv_rectangular source_blob → Csv_rectangular target_blob →
  pk_col ∈ header source_blob → pk_col ∈ header target_blob →
  ∃ report,
    process_parallel_blob host source_blob target_blob pk_col timing
    = Ok report.
Proof.
  intros Hs Ht Hpks Hpkt.
  destruct (run_rows_outcomes (read_blob_to_df source_blob)
              (read_blob_to_df target_blob) pk_col
              (chunk_size_of host (read_blob_to_df source_blob)))
    as (os & Hos & _);
    [by apply read_blob_to_df_rectangular | done
    | by apply read_blob_to_df_rectangular | done
    | apply chunk_size_of_pos |].
  by eapply process_parallel_blob_returns.
Qed.

(** The report of a run on rectangular tables, with the outcomes of the
    source rows it tallies. *)
Lemma process_parallel_blob_rows host source_blob target_blob pk_col timing :
  Csv_rectangular source_blob → Csv_rectangular target_blob →
  pk_col ∈ header source_blob → pk_col ∈ header target_blob →
  ∃ report os,
    process_parallel_blob host source_blob target_blob pk_col timing
    = Ok report
    ∧ run_outcomes (read_blob_to_df source_blob) (read_blob_to_df target_blob)
        pk_col (chunk_size_of host (read_blob_to_df source_blob)) = Ok os
    ∧ Forall2 (row_outcome_ok (read_blob_to_df source_blob)
                 (read_blob_to_df target_blob) pk_col)
              (rows (read_blob_to_df source_blob)) os
    ∧ matched (totals report) = count is_matched os
    ∧ missing (totals report) = count is_missing os
    ∧ mismatched (totals report) = count is_mismatched os
    ∧ diffs (totals report) ≡ₚ omap id os.
Proof.
  intros Hs Ht Hpks Hpkt.
  destruct (process_parallel_blob_total host source_blob target_blob pk_col
              timing Hs Ht Hpks Hpkt) as [report Hrun].
  destruct (process_parallel_blob_outcomes _ _ _ _ _ _ Hrun)
    as (os & Hos & Hm & Hmi & Hmm & _ & Hd & _).
  destruct (run_rows_outcomes (read_blob_to_df source_blob)
              (read_blob_to_df target_blob) pk_col
              (chunk_size_of host (read_blob_to_df source_blob)))
    as (os' & Hos' & Hrows);
    [by apply read_blob_to_df_rectangular | done
    | by apply read_blob_to_df_rectangular | done
    | apply chunk_size_of_pos |].
  rewrite Hos in Hos'. injection Hos' as <-.
  by exists report, os.
Qed.

(** ** C3 and C9 *)

(** A chunk comparison of rectangular frames that hold the key column
    returns a result. *)
Lemma compare_chunk_total src_chunk tgt_chunk pk_col :
  rectangular src_chunk → pk_col ∈ columns src_chunk →
  rectangular tgt_chunk → pk_col ∈ columns tgt_chunk →
  ∃ res, compare_chunk src_chunk tgt_chunk pk_col = Ok res.
Proof.
  intros Hs Hpks Ht Hpkt.
  destruct (build_tgt_map_Ok tgt_chunk pk_col Ht Hpkt) as (m & Hm & _).
  destruct (mapM_result_Forall2
              (compare_row m (columns src_chunk) pk_col) (λ _ _, True)
              (rows src_chunk)) as (os & Hos & _).
  { intros row Hrow.
    destruct (compare_row_Ok m (columns src_chunk) pk_col row)
      as (o & Ho & _); [by eapply Forall_forall in Hs | done |].
    by exists o. }
  exists (tally_all os). apply compare_chunk_Ok. exists os.
  split; [|done]. unfold chunk_outcomes. by rewrite Hm.
Qed.

(** C3. A chunk comparison of rectangular frames holding the key column,
    the column labels of each frame being distinct, returns a result, and
    in every result a chunk comparison returns [checked] is the sum of
    [matched], [missing] and [mismatched]; a run on rectangular tables
    holding the key column returns a report, and in every report a run
    returns the same holds of the aggregated counters. *)
Theorem C3_checked_is_sum :
  (∀ src_chunk tgt_chunk pk_col,
     rectangular src_chunk → pk_col ∈ columns src_chunk →
     NoDup (columns src_chunk) →
     rectangular tgt_chunk → pk_col ∈ columns tgt_chunk →
     NoDup (columns tgt_chunk) →
     ∃ res, compare_chunk src_chunk tgt_chunk pk_col = Ok res)
  ∧ (∀ src_chunk tgt_chunk pk_col res,
       compare_chunk src_chunk tgt_chunk pk_col = Ok res →
       checked res = matched res + missing res + mismatched res)
  ∧ (∀ host source_blob target_blob pk_col timing,
       Csv_rectangular source_blob → Csv_rectangular target_blob →
       pk_col ∈ header source_blob → pk_col ∈ header target_blob →
       ∃ report,
         process_parallel_blob host source_blob target_blob pk_col timing
         = Ok report)
  ∧ (∀ host source_blob target_blob pk_col timing report,
       process_parallel_blob host source_blob target_blob pk_col timing
       = Ok report →
       checked (totals report)
       = matched (totals report) + missing (totals report)
         + mismatched (totals report)).
Proof.
  split; [intros ??? Hs Hpks _ Ht Hpkt _; by apply compare_chunk_total|].
  split; [|split; [apply process_parallel_blob_total|]].
  - intros ???? H. by apply compare_chunk_counters in H as (? & _).
  - intros ?????? H.
    apply process_parallel_blob_outcomes in H
      as (os & _ & -> & -> & -> & -> & _).
    by rewrite count_partition.
Qed.

(** C9. In every result a chunk comparison returns, the diff list has
    [missing + mismatched] records, and in every report a run returns the
    same holds of the aggregated diff list and counters; a chunk
    comparison returns on rectangular frames holding the key column whose
    column labels are distinct, and a run on rectangular tables holding
    the key column. *)
Theorem C9_diffs_length :
  (∀ src_chunk tgt_chunk pk_col,
     rectangular src_chunk → pk_col ∈ columns src_chunk →
     NoDup (columns src_chunk) →
     rectangular tgt_chunk → pk_col ∈ columns tgt_chunk →
     NoDup (columns tgt_chunk) →
     ∃ res, compare_chunk src_chunk tgt_chunk pk_col = Ok res)
  ∧ (∀ src_chunk tgt_chunk pk_col res,
       compare_chunk src_chunk tgt_chunk pk_col = Ok res →
       Z.of_nat (length (diffs res)) = missing res + mismatched res)
  ∧ (∀ host source_blob target_blob pk_col timing,
       Csv_rectangular source_blob → Csv_rectangular target_blob →
       pk_col ∈ header source_blob → pk_col ∈ header target_blob →
       ∃ report,
         process_parallel_blob host source_blob target_blob pk_col timing
         = Ok report)
  ∧ (∀ host source_blob target_blob pk_col timing report,
       process_parallel_blob host source_blob target_blob pk_col timing
       = Ok report →
       Z.of_nat (length (diffs (totals report)))
       = missing (totals report) + mismatched (totals report)).
Proof.
  split; [intros ??? Hs Hpks _ Ht Hpkt _; by apply compare_chunk_total|].
  split; [|split; [apply process_parallel_blob_total|]].
  - intros ???? H. by apply compare_chunk_counters in H as (_ & ? & _).
  - intros ?????? H.
    apply process_parallel_blob_outcomes in H
      as (os & _ & _ & -> & -> & _ & Hd & _).
    by rewrite Hd, length_omap_outcomes.
Qed.

(** ** C1: a table against itself *)

(** In a key-consistent table every row agrees with the table itself. *)
Lemma agrees_with_self df pk_col row :
  key_consistent df pk_col → row ∈ rows df →
  agrees_with_target df df pk_col row.
Proof.
  intros Hcons Hrow. split; [by exists row|].
  intros t Ht Hkey c Hc Hne. unfold target_cell.
  rewrite decide_True by done. symmetry. by apply Hcons.
Qed.

(** C1, amended. Comparing a rectangular table that holds the key column
    against itself returns a report with [missing = 0], [mismatched = 0]
    and [matched = len(table)], provided that rows of the table with the
    same normalized key carry the same normalized value in every other
    column (as they do when the normalized keys are distinct). *)
Theorem C1_self_comparison (host : Host) (blob : Csv) (pk_col : pystr)
    (timing : list nat) :
  Csv_rectangular blob → pk_col ∈ header blob →
  key_consistent (read_blob_to_df blob) pk_col →
  ∃ report,
    process_parallel_blob host blob blob pk_col timing = Ok report
    ∧ missing (totals report) = 0
    ∧ mismatched (totals report) = 0
    ∧ matched (totals report) = df_len (read_blob_to_df blob).
Proof.
  intros Hrect Hpk Hcons.
  destruct (process_parallel_blob_rows host blob blob pk_col timing)
    as (report & os & Hrun & _ & Hrows & Hm & Hmi & Hmm & _); [done..|].
  exists report. split; [done|].
  assert (Forall (λ o, o = None) os) as Hall.
  { apply Forall_forall. intros o [i Hi]%list_elem_of_lookup.
    destruct (Forall2_lookup_r _ _ _ _ _ Hrows Hi) as (row & Hrow & Hok & _).
    apply Hok, agrees_with_self; [done|].
    by eapply list_elem_of_lookup_2. }
  destruct (count_all_matched os Hall) as (Cm & Cmi & Cmm).
  rewrite Hm, Hmi, Hmm, Cm, Cmi, Cmm. unfold df_len.
  by rewrite (Forall2_length _ _ _ Hrows).
Qed.

Lemma C1_self_comparison_witness :
  ∃ report,
    process_parallel_blob host8 (csv "pk,a|1,X |2,Y|3,Z") (csv "pk,a|1,X |2,Y|3,Z")
      (py "pk") [2%nat; 0%nat] = Ok report
    ∧ missing (totals report) = 0
    ∧ mismatched (totals report) = 0
    ∧ matched (totals report) = 3.
Proof.
  apply (C1_self_comparison host8 (csv "pk,a|1,X |2,Y|3,Z") (py "pk")
           [2%nat; 0%nat]).
  - vm_compute. repeat constructor.
  - vm_compute. left.
  - intros r1 r2 H1 H2 Hkey c Hc Hne.
    vm_compute in H1, H2, Hc.
    repeat (apply elem_of_cons in H1 as [->|H1]);
      [| | |by apply elem_of_nil in H1];
      (repeat (apply elem_of_cons in H2 as [->|H2]);
         [| | |by apply elem_of_nil in H2]);
      first [reflexivity | by vm_compute in Hkey].
Defined.

(** A table with two rows under the same key that differ in another
    column: compared with itself, the first row is reported as
    mismatched. *)
Lemma C1_counterexample :
  Csv_rectangular duplicate_keys
  ∧ py "pk" ∈ header duplicate_keys
  ∧ df_len (read_blob_to_df duplicate_keys) = 2
  ∧ totals <$> returned (process_parallel_blob host8 duplicate_keys
                           duplicate_keys (py "pk") [])
    = Some {| diffs := [MISMATCH (py "1") [(py "a", (py "X", py "Y"))]];
              matched := 1; missing := 0; mismatched := 1; checked := 2 |}.
Proof.
  split; [vm_compute; repeat constructor|].
  split; [vm_compute; left|].
  split; vm_compute; reflexivity.
Qed.

(** ** C2: cosmetic differences *)

(** C2, amended. On rectangular tables that hold the key column, a source
    row is reported as matched (its outcome is no diff record, and the
    report counts and lists the outcomes of the rows) whenever some target
    row has its raw key as loaded and every target row with its
    normalized key carries, in each non-key source column, a cell equal to
    the source cell after normalization. *)
Theorem C2_agreeing_row_matched (host : Host) (source_blob target_blob : Csv)
    (pk_col : pystr) (timing : list nat) (i : nat) (row : list value) :
  Csv_rectangular source_blob → Csv_rectangular target_blob →
  pk_col ∈ header source_blob → pk_col ∈ header target_blob →
  rows (read_blob_to_df source_blob) !! i = Some row →
  agrees_with_target (read_blob_to_df source_blob)
    (read_blob_to_df target_blob) pk_col row →
  ∃ report os,
    process_parallel_blob host source_blob target_blob pk_col timing
    = Ok report
    ∧ run_outcomes (read_blob_to_df source_blob) (read_blob_to_df target_blob)
        pk_col (chunk_size_of host (read_blob_to_df source_blob)) = Ok os
    ∧ os !! i = Some None
    ∧ matched (totals report) = count is_matched os
    ∧ missing (totals report) = count is_missing os
    ∧ mismatched (totals report) = count is_mismatched os
    ∧ diffs (totals report) ≡ₚ omap id os.
Proof.
  intros Hs Ht Hpks Hpkt Hrow Hagree.
  destruct (process_parallel_blob_rows host source_blob target_blob pk_col
              timing Hs Ht Hpks Hpkt)
    as (report & os & Hrun & Hos & Hrows & Hcounts).
  exists report, os. split; [done|]. split; [done|]. split; [|done].
  destruct (Forall2_lookup_l _ _ _ _ _ Hrows Hrow) as (o & Ho & Hok & _).
  by rewrite Ho, (Hok Hagree).
Qed.

Lemma C2_agreeing_row_matched_witness :
  ∃ report os,
    process_parallel_blob host8 (csv "pk,a,b|1,X ,|2,Y,q") (csv "pk,a|2,Z|1,X")
      (py "pk") [] = Ok report
    ∧ run_outcomes (read_blob_to_df (csv "pk,a,b|1,X ,|2,Y,q"))
        (read_blob_to_df (csv "pk,a|2,Z|1,X")) (py "pk")
        (chunk_size_of host8 (read_blob_to_df (csv "pk,a,b|1,X ,|2,Y,q")))
      = Ok os
    ∧ os !! 0%nat = Some None
    ∧ matched (totals report) = count is_matched os
    ∧ missing (totals report) = count is_missing os
    ∧ mismatched (totals report) = count is_mismatched os
    ∧ diffs (totals report) ≡ₚ omap id os.
Proof.
  apply (C2_agreeing_row_matched host8 (csv "pk,a,b|1,X ,|2,Y,q")
           (csv "pk,a|2,Z|1,X") (py "pk") [] 0%nat
           [VStr (py "1"); VStr (py "X"); VStr []]).
  - vm_compute. repeat constructor.
  - vm_compute. repeat constructor.
  - vm_compute. left.
  - vm_compute. left.
  - vm_compute. reflexivity.
  - split.
    + exists [VStr (py "1"); VStr (py "X")]. split; [|vm_compute; reflexivity].
      vm_compute. right. left.
    + intros t Ht Hkey c Hc Hne. vm_compute in Ht, Hc.
      repeat (apply elem_of_cons in Ht as [->|Ht]);
        [| |by apply elem_of_nil in Ht];
        [by vm_compute in Hkey|].
      repeat (apply elem_of_cons in Hc as [->|Hc]);
        [| | |by apply elem_of_nil in Hc];
        first [done | vm_compute; reflexivity].
Defined.

(** Each of the two source rows has a target row equal to it cell by
    cell after normalization (the first two target rows), yet the first is
    reported missing, because its raw key is not the raw key of that target
    row, and the second mismatched, because a later target row with its key
    differs. *)
Lemma C2_counterexample :
  map (map normalize) (rows (read_blob_to_df cosmetic_source))
  = [[py "ab"; py "X"]; [py "1"; py "X"]]
  ∧ map (map normalize) (rows (read_blob_to_df cosmetic_target))
    = [[py "ab"; py "X"]; [py "1"; py "X"]; [py "1"; py "Y"]]
  ∧ totals <$> returned (process_parallel_blob host8 cosmetic_source
                           cosmetic_target (py "pk") [])
    = Some {| diffs := [MISSING_IN_TARGET (py "ab");
                        MISMATCH (py "1") [(py "a", (py "X", py "Y"))]];
              matched := 0; missing := 1; mismatched := 1; checked := 2 |}.
Proof. repeat split; vm_compute; reflexivity. Qed.

(** ** C3 and C9 on a run *)

(** Decidable side conditions of the examples. *)
Ltac by_compute :=
  match goal with
  | |- ?P => apply (bool_decide_unpack P); vm_compute; exact I
  end.

Lemma C3_checked_is_sum_witness :
  (∃ res, compare_chunk orders_src orders_tgt (py "pk") = Ok res)
  ∧ ∃ report,
      process_parallel_blob host8 (csv "pk,a|1,X|2,Y|3,Z")
        (csv "pk,a|1,X|3,W") (py "pk") [1%nat] = Ok report
      ∧ counters (totals report) = (1, 1, 1, 3)
      ∧ checked (totals report)
        = matched (totals report) + missing (totals report)
          + mismatched (totals report).
Proof.
  split.
  { apply (proj1 C3_checked_is_sum orders_src orders_tgt (py "pk"));
      by_compute. }
  eexists. split; [vm_compute; reflexivity|]. split; [reflexivity|].
  apply (proj2 (proj2 (proj2 C3_checked_is_sum)) host8 (csv "pk,a|1,X|2,Y|3,Z")
           (csv "pk,a|1,X|3,W") (py "pk") [1%nat]).
  vm_compute. reflexivity.
Defined.


Lemma C9_diffs_length_witness :
  (∃ res, compare_chunk orders_src orders_tgt (py "pk") = Ok res)
  ∧ ∃ report,
      process_parallel_blob host8 (csv "pk,a|1,X|2,Y|3,Z")
        (csv "pk,a|1,X|3,W") (py "pk") [1%nat] = Ok report
      ∧ diffs (totals report)
        = [MISSING_IN_TARGET (py "2");
           MISMATCH (py "3") [(py "a", (py "Z", py "W"))]]
      ∧ Z.of_nat (length (diffs (totals report)))
        = missing (totals report) + mismatched (totals report).
Proof.
  split.
  { apply (proj1 C9_diffs_length orders_src orders_tgt (py "pk"));
      by_compute. }
  eexists. split; [vm_compute; reflexivity|]. split; [reflexivity|].
  apply (proj2 (proj2 (proj2 C9_diffs_length)) host8 (csv "pk,a|1,X|2,Y|3,Z")
           (csv "pk,a|1,X|3,W") (py "pk") [1%nat]).
  vm_compute. reflexivity.
Defined.

(** * Further properties *)

(** ** The normalizer *)

Section normalizer_facts.
Import PyStr.

Lemma lstrip_remove c s :
  isspace c = true → lstrip (remove c s) = remove c (lstrip s).
Proof.
  intros Hc. induction s as [|x s IH]; [done|].
  unfold remove in *. simpl lstrip at 2.
  destruct (isspace x) eqn:Hx.
  - rewrite filter_cons. case_decide; [|done]. simpl. by rewrite Hx.
  - rewrite filter_cons_True by congruence. simpl. by rewrite Hx.
Qed.

Lemma strip_remove c s :
  isspace c = true → strip (remove c s) = remove c (strip s).
Proof.
  intros Hc. unfold strip, rstrip.
  by rewrite lstrip_remove, <-remove_reverse, lstrip_remove, remove_reverse.
Qed.

(** Deleting first and stripping afterwards gives the same string. *)
Lemma clean_delete_first s :
  clean s = strip (remove TAB (remove CR (remove NBSP s))).
Proof. unfold clean. by rewrite !strip_remove. Qed.

Lemma remove_middle c s1 s2 : remove c (s1 ++ c :: s2) = remove c (s1 ++ s2).
Proof.
  unfold remove. rewrite !filter_app, filter_cons_False; [done|].
  by intros H.
Qed.

Lemma remove_comm c d s : remove c (remove d s) = remove d (remove c s).
Proof.
  unfold remove. rewrite !list_filter_filter. apply list_filter_iff.
  intros x. tauto.
Qed.

Lemma lstrip_space_app w s : all_space w → lstrip (w ++ s) = lstrip s.
Proof.
  induction 1 as [|c w Hc _ IH]; simpl; [done|]. by rewrite Hc.
Qed.

Lemma strip_space_app w1 w2 s :
  all_space w1 → all_space w2 → strip (w1 ++ s ++ w2) = strip s.
Proof.
  intros H1 H2. unfold strip, rstrip. rewrite lstrip_space_app by done.
  destruct (lstrip_split s) as (w & Hs & Hw).
  assert (lstrip (s ++ w2) = lstrip s ++ w2 ∨ lstrip s = []) as [->|Hnil].
  { clear Hs Hw. induction s as [|x s IH]; simpl; [by right|].
    destruct (isspace x); [done | by left]. }
  - rewrite reverse_app, lstrip_space_app; [done|].
    unfold all_space. by apply Forall_reverse.
  - rewrite Hnil. rewrite Hnil, app_nil_r in Hs. subst s.
    rewrite <-(app_nil_r (w ++ w2)), lstrip_space_app; [done|].
    unfold all_space. by apply Forall_app.
Qed.

Lemma lstrip_suffix s : lstrip s `suffix_of` s.
Proof. destruct (lstrip_split s) as (w & Hs & _). by exists w. Qed.

Lemma strip_sublist s : strip s `sublist_of` s.
Proof.
  unfold strip, rstrip. transitivity (lstrip s).
  - destruct (lstrip_split (reverse (lstrip s))) as (w & Hs & _).
    apply (f_equal reverse) in Hs.
    rewrite reverse_involutive, reverse_app in Hs.
    rewrite Hs at 2. apply sublist_inserts_r. done.
  - destruct (lstrip_suffix s) as [w Hw]. rewrite Hw at 2.
    by apply sublist_inserts_l.
Qed.

Lemma remove_sublist c s : remove c s `sublist_of` s.
Proof. apply sublist_filter. Qed.

Lemma clean_sublist s : clean s `sublist_of` s.
Proof.
  unfold clean. do 3 (etrans; [apply remove_sublist|]). apply strip_sublist.
Qed.

(** The characters of [str(n)] are digits and the minus sign. *)
Lemma digits_chars d c : c ∈ digits d → (48 ≤ c ≤ 57)%N.
Proof.
  induction d; simpl; try (by intros ?%elem_of_nil);
    intros [->|?]%elem_of_cons; auto; lia.
Qed.

Lemma of_Z_chars n c : c ∈ of_Z n → c = 45%N ∨ (48 ≤ c ≤ 57)%N.
Proof.
  unfold of_Z. destruct (Z.to_int n).
  - intros ?%digits_chars. by right.
  - intros [->|?%digits_chars]%elem_of_cons; auto.
Qed.

Lemma no_space_clean_fixed s :
  (∀ c, c ∈ s → isspace c = false) → clean s = s.
Proof.
  intros Hs. apply clean_fixed.
  - apply lstrip_fixed. intros c Hc. apply Hs. by apply head_Some_elem_of.
  - apply lstrip_fixed. intros c Hc. apply Hs.
    apply head_Some_elem_of in Hc. exact (proj1 (elem_of_reverse _ _) Hc).
  - intros Hin. apply Hs in Hin. by vm_compute in Hin.
  - intros Hin. apply Hs in Hin. by vm_compute in Hin.
  - intros Hin. apply Hs in Hin. by vm_compute in Hin.
Qed.

Lemma endswith_elem_of s suffix c :
  endswith s suffix = true → c ∈ suffix → c ∈ s.
Proof.
  unfold endswith. intros [Hdrop _]%bool_decide_eq_true Hc.
  rewrite <-Hdrop in Hc. by apply subseteq_drop in Hc.
Qed.

End normalizer_facts.

(** A cleaned string has no whitespace at either end and none of the
    deleted characters. *)
Lemma clean_no_outer_space (s : pystr) :
  no_outer_space (clean s) ∧ ∀ c, deleted_char c → c ∉ clean s.
Proof.
  destruct (clean_shape s) as (Hl & Hr & Hn & Hc & Ht).
  split; [split|].
  - by apply lstrip_fixed.
  - intros c Hc'. rewrite <-head_reverse in Hc'. revert c Hc'.
    by apply lstrip_fixed.
  - by intros c [->|[->| ->]].
Qed.

(** X1. Whatever the value, the normalized string has no whitespace at
    either end and none of the characters NBSP, CR and TAB. *)
Theorem normalize_shape (val : value) :
  no_outer_space (normalize val)
  ∧ ∀ c, deleted_char c → c ∉ normalize val.
Proof.
  destruct (normalize_clean val) as [s ->]. apply clean_no_outer_space.
Qed.

(** X2. [normalize] returns a string unchanged exactly when the string
    has no whitespace at either end and none of the characters NBSP, CR and
    TAB. *)
Theorem normalize_fixed_iff (s : pystr) :
  normalize (VStr s) = s ↔
  no_outer_space s ∧ ∀ c, deleted_char c → c ∉ s.
Proof.
  split.
  - intros Heq. rewrite <-Heq, normalize_str. apply clean_no_outer_space.
  - intros [[Hhead Hlast] Hdel]. rewrite normalize_str. apply clean_fixed.
    + by apply lstrip_fixed.
    + apply lstrip_fixed. intros c Hc. rewrite head_reverse in Hc. eauto.
    + apply Hdel. by left.
    + apply Hdel. right. by left.
    + apply Hdel. right. by right.
Qed.

(** X3. Whitespace around a string, and the characters NBSP, CR and TAB
    anywhere in it, do not change what it normalizes to. *)
Theorem normalize_cosmetic_insensitive :
  (∀ w1 w2 s,
     all_space w1 → all_space w2 →
     normalize (VStr (w1 ++ s ++ w2)) = normalize (VStr s))
  ∧ (∀ c s1 s2,
       deleted_char c →
       normalize (VStr (s1 ++ c :: s2)) = normalize (VStr (s1 ++ s2))).
Proof.
  split.
  - intros w1 w2 s H1 H2. rewrite !normalize_str. unfold clean.
    by rewrite strip_space_app.
  - intros c s1 s2 Hc. rewrite !normalize_str, !clean_delete_first.
    f_equal. destruct Hc as [->|[->| ->]].
    + by rewrite remove_middle.
    + rewrite !(remove_comm PyStr.CR PyStr.NBSP). by rewrite remove_middle.
    + rewrite !(remove_comm PyStr.TAB PyStr.CR),
        !(remove_comm PyStr.TAB PyStr.NBSP).
      by rewrite remove_middle.
Qed.

Lemma normalize_cosmetic_insensitive_witness :
  normalize (VStr ([32; 9] ++ py "a b" ++ [13; 10]))%N = py "a b"
  ∧ normalize (VStr (py "a" ++ 160%N :: py "b")) = py "ab".
Proof.
  split.
  - rewrite (proj1 normalize_cosmetic_insensitive [32; 9]%N [13; 10]%N
               (py "a b")); [vm_compute; reflexivity | |];
      repeat constructor.
  - rewrite (proj2 normalize_cosmetic_insensitive 160%N (py "a") (py "b"));
      [vm_compute; reflexivity | by left].
Defined.

(** X4. [normalize] only deletes characters of a string: the result is the
    string with some characters left out, in the same order. *)
Theorem normalize_sublist (s : pystr) : normalize (VStr s) `sublist_of` s.
Proof. rewrite normalize_str. apply clean_sublist. Qed.

Lemma digits_inj d1 d2 : PyStr.digits d1 = PyStr.digits d2 → d1 = d2.
Proof.
  revert d2. induction d1; intros []; simpl; try discriminate;
    try done; intros [= ?]; f_equal; auto.
Qed.

(** [str] is injective on [int]. *)
Lemma of_Z_inj a b : PyStr.of_Z a = PyStr.of_Z b → a = b.
Proof.
  unfold PyStr.of_Z. intros Heq. apply DecimalZ.to_int_inj.
  destruct (Z.to_int a) as [d1|d1], (Z.to_int b) as [d2|d2].
  - by rewrite (digits_inj _ _ Heq).
  - assert (45%N ∈ PyStr.digits d1) as Hin by (rewrite Heq; left).
    apply digits_chars in Hin. lia.
  - assert (45%N ∈ PyStr.digits d2) as Hin by (rewrite <-Heq; left).
    apply digits_chars in Hin. lia.
  - injection Heq as Heq. by rewrite (digits_inj _ _ Heq).
Qed.

(** Cleaning leaves the decimal rendering of an integer as it is. *)
Lemma clean_of_Z (n : Z) : clean (PyStr.of_Z n) = PyStr.of_Z n.
Proof.
  apply no_space_clean_fixed. intros c [->|Hc]%of_Z_chars; [done|].
  unfold PyStr.isspace.
  repeat match goal with
         | |- context [(?a <=? ?b)%N] => destruct (N.leb_spec a b); try lia
         | |- context [(?a =? ?b)%N] => destruct (N.eqb_spec a b); try lia
         end; done.
Qed.

Lemma normalize_VInt (n : Z) : normalize (VInt n) = PyStr.of_Z n.
Proof.
  unfold normalize. simpl.
  destruct (PyStr.endswith (PyStr.of_Z n) (py ".0")) eqn:Hends.
  - apply (endswith_elem_of _ _ 46%N) in Hends; [|left].
    apply of_Z_chars in Hends. lia.
  - apply clean_of_Z.
Qed.

(** X5. An [int] normalizes to its decimal rendering, and two different
    integers never normalize to the same string. *)
Theorem normalize_int (n : Z) :
  normalize (VInt n) = PyStr.of_Z n
  ∧ (∀ m, normalize (VInt n) = normalize (VInt m) → n = m).
Proof.
  split; [apply normalize_VInt|].
  intros m. rewrite !normalize_VInt. apply of_Z_inj.
Qed.

(** X6. A float whose rendering ends in [.0] normalizes as the integer it
    truncates to: [5.0] and [5] compare equal. *)
Theorem normalize_whole_float (repr : pystr) (trunc : Z) :
  PyStr.endswith repr (py ".0") = true →
  normalize (VFloat repr trunc) = normalize (VInt trunc)
  ∧ normalize (VFloat repr trunc) = PyStr.of_Z trunc.
Proof.
  intros Hends. rewrite normalize_VInt.
  cut (normalize (VFloat repr trunc) = PyStr.of_Z trunc); [by intros ->|].
  unfold normalize. cbn [isna is_number py_str py_int].
  rewrite Hends. apply clean_of_Z.
Qed.

Lemma normalize_whole_float_witness :
  normalize (VFloat (py "5.0") 5) = normalize (VInt 5)
  ∧ normalize (VFloat (py "5.0") 5) = PyStr.of_Z 5.
Proof. apply (normalize_whole_float (py "5.0") 5). reflexivity. Defined.

(** ** Loading *)

Lemma normalize_loaded_cell v :
  normalize (strip_if_str (if isna v then VStr [] else v)) = normalize v.
Proof.
  destruct v as [| |n|r t|s]; try done.
  simpl. rewrite !normalize_str. unfold clean. by rewrite strip_idem.
Qed.

(** X7. Loading changes no normalized value: every cell of the loaded frame
    normalizes to what the parsed cell normalizes to (a missing cell and
    the empty string both to the empty string). *)
Theorem load_keeps_normalized (blob : Csv) :
  map (map normalize) (rows (read_blob_to_df blob))
  = map (map normalize) (rows (read_csv blob)).
Proof.
  unfold read_blob_to_df, fillna, applymap. simpl.
  rewrite !map_map. apply map_ext. intros record.
  rewrite !map_map. apply map_ext. intros field.
  apply normalize_loaded_cell.
Qed.

(** X8. Loading is idempotent: filling and stripping a loaded frame again
    leaves it as it is. *)
Theorem load_idempotent (blob : Csv) :
  clean_frame (read_blob_to_df blob) = read_blob_to_df blob.
Proof.
  unfold clean_frame, read_blob_to_df, fillna, applymap, read_csv. simpl.
  f_equal. rewrite !map_map.
  apply map_ext. intros record. rewrite !map_map. apply map_ext.
  intros [s|]; simpl; [|done]. by rewrite strip_idem.
Qed.

(** ** Tuning *)

(** The chunk size is one of six values. *)
Lemma auto_tune_chunk_sizes (host : Host) (total_records : Z) :
  (auto_tune_settings host total_records).1
  ∈ [10000; 15000; 20000; 25000; 30000; 50000].
Proof.
  unfold auto_tune_settings.
  destruct (total_records <=? 100000), (total_records <=? 1000000),
    (low_memory host); cbn [fst snd];
    apply list_elem_of_In; vm_compute; tauto.
Qed.

(** X9. The chunk size is one of six values between 10000 and 50000 (the
    floor of 5000 is never reached) and the worker count lies between 1
    and 16, and is at least 2 when memory is low. *)
Theorem auto_tune_settings_range (host : Host) (total_records : Z) :
  (auto_tune_settings host total_records).1
  ∈ [10000; 15000; 20000; 25000; 30000; 50000]
  ∧ 1 ≤ (auto_tune_settings host total_records).2 ≤ 16
  ∧ (low_memory host = true →
     2 ≤ (auto_tune_settings host total_records).2 ≤ 8).
Proof.
  split; [apply auto_tune_chunk_sizes|].
  pose proof (cpu_count_or_1_pos host) as Hcpu.
  unfold auto_tune_settings.
  generalize dependent (cpu_count_or_1 host). intros c Hc.
  destruct (total_records <=? 100000), (total_records <=? 1000000),
    (low_memory host); cbn [fst snd];
    (split; [|intros ?; try done]);
    Z.to_euclidean_division_equations; lia.
Qed.

Lemma auto_tune_settings_range_witness :
  low_memory (host_with (Some 8%N) 1000000000) = true
  ∧ 2 ≤ (auto_tune_settings (host_with (Some 8%N) 1000000000) 500000).2 ≤ 8.
Proof.
  split; [reflexivity|].
  apply (auto_tune_settings_range (host_with (Some 8%N) 1000000000) 500000).
  reflexivity.
Defined.

(** ** The chunk comparison, row by row *)

Lemma ChunkResult_eq (a b : ChunkResult) :
  diffs a = diffs b → matched a = matched b → missing a = missing b →
  mismatched a = mismatched b → checked a = checked b → a = b.
Proof. destruct a, b; simpl; congruence. Qed.

Lemma mapM_result_map {A B} (f : A → result B) (g : A → B) l :
  (∀ x, x ∈ l → f x = Ok (g x)) → mapM_result f l = Ok (map g l).
Proof.
  induction l as [|x l IH]; intros Hall; simpl; [done|].
  rewrite Hall by left. simpl. rewrite IH; [done|].
  intros y Hy. apply Hall. by right.
Qed.

Lemma getitem_absent cols row col :
  col ∉ cols → getitem cols row col = Raise (KeyError col).
Proof.
  revert row. induction cols as [|c cols IH]; intros [|v row] Hnot;
    simpl; try done.
  rewrite decide_False by (intros ->; apply Hnot; left).
  apply IH. intros Hin. apply Hnot. by right.
Qed.

Lemma dict_set_fresh {V} (d : list (pystr * V)) k v :
  k ∉ d.*1 → dict_set d k v = d ++ [(k, v)].
Proof.
  induction d as [|[k' v'] d IH]; simpl; [done|]. intros Hnot.
  rewrite decide_False by (intros ->; apply Hnot; left).
  rewrite IH; [done|]. intros Hin. apply Hnot. by right.
Qed.

(** With distinct column names the inner loop lists the differing non-key
    columns in column order. *)
Lemma row_mismatch_fold_exact (cols : list pystr) (pk_col : pystr)
    (row : list value) (d : gmap pystr pystr) (l : list pystr)
    (acc : list (pystr * (pystr * pystr))) :
  length row = length cols → l ⊆ cols → NoDup l →
  (∀ c, c ∈ l → c ∉ acc.*1) →
  foldM (λ mismatch col,
           if decide (col = pk_col) then Ok mismatch
           else
             let* v := getitem cols row col in
             let tgt := default [] (d !! col) in
             if decide (normalize v ≠ tgt)
             then Ok (dict_set mismatch col (normalize v, tgt))
             else Ok mismatch) acc l
  = Ok (acc ++ omap (λ c, if decide (c = pk_col) then None
                          else
                            let s := normalize (cell cols row c) in
                            let g := default [] (d !! c) in
                            if decide (s ≠ g) then Some (c, (s, g)) else None)
                    l).
Proof.
  intros Hlen. revert acc.
  induction l as [|x l IH]; intros acc Hsub Hnd Hfresh.
  - simpl. by rewrite app_nil_r.
  - apply NoDup_cons in Hnd as [Hx Hnd].
    assert (l ⊆ cols) as Hsub' by set_solver.
    cbn [foldM]. destruct (decide (x = pk_col)) as [->|Hne].
    + cbn [bind omap list_omap]. rewrite decide_True by done.
      apply IH; [done..|]. intros c Hc. apply Hfresh. by right.
    + rewrite getitem_Ok_cell by (done || apply Hsub; left).
      cbn [bind omap list_omap].
      rewrite (decide_False (P := x = pk_col)) by done.
      destruct (decide (normalize (cell cols row x) ≠ default [] (d !! x))).
      * cbn [bind]. rewrite IH; [| done.. |].
        -- rewrite dict_set_fresh by (apply Hfresh; left).
           cbn zeta. by rewrite <-app_assoc.
        -- intros c Hc. rewrite dict_set_fresh by (apply Hfresh; left).
           rewrite fmap_app, elem_of_app. intros [Hin|Hin].
           ++ by apply (Hfresh c); [right|].
           ++ apply list_elem_of_singleton in Hin. simpl in Hin. by subst.
      * cbn [bind]. apply IH; [done..|]. intros c Hc. apply Hfresh. by right.
Qed.

Lemma row_mismatch_exact (cols tgt_cols : list pystr) (pk_col : pystr)
    (row t : list value) (d : gmap pystr pystr) :
  length row = length cols → NoDup cols →
  (∀ c, default [] (d !! c) = target_cell tgt_cols t c) →
  row_mismatch cols pk_col row d
  = Ok (differing_columns cols tgt_cols pk_col row t).
Proof.
  intros Hlen Hnd Hd. unfold row_mismatch.
  etrans; [apply (row_mismatch_fold_exact cols pk_col row d cols []);
           try done|].
  - intros c _ Hin. by apply elem_of_nil in Hin.
  - simpl. f_equal. unfold differing_columns.
    apply list_omap_ext. apply Forall2_same_length_lookup_2; [done|].
    intros i c c' Hc Hc'. rewrite Hc in Hc'. injection Hc' as <-.
    by rewrite Hd.
Qed.

(** [tgt_map] holds under each normalized key the normalized copy of the
    last target row with that key. *)
Lemma build_tgt_map_last tgt_chunk pk_col :
  rectangular tgt_chunk → pk_col ∈ columns tgt_chunk →
  ∃ m,
    build_tgt_map tgt_chunk pk_col = Ok m
    ∧ ∀ k, match last_with_key tgt_chunk pk_col k with
           | None => m !! k = None
           | Some t =>
               ∃ d, m !! k = Some d
                    ∧ normalized_row (columns tgt_chunk) t = Ok d
           end.
Proof.
  intros Hrect Hpk. unfold build_tgt_map, last_with_key.
  set (f := λ (tgt_map : gmap pystr (gmap pystr pystr)) (row : list value),
          let* k := getitem (columns tgt_chunk) row pk_col in
          let pk := normalize k in
          let* d := normalized_row (columns tgt_chunk) row in
          Ok (<[pk := d]> tgt_map)).
  assert (∃ m, foldM f ∅ (rows tgt_chunk) = Ok m
               ∧ ∀ k, match last (filter (λ t, normalized_key
                                            (columns tgt_chunk) pk_col t = k)
                                         (rows tgt_chunk)) with
                      | None => m !! k = None
                      | Some t =>
                          ∃ d, m !! k = Some d
                               ∧ normalized_row (columns tgt_chunk) t = Ok d
                      end) as (m & Hm & Hspec).
  { unfold rectangular in Hrect.
    induction (rows tgt_chunk) as [|x l IH] using rev_ind.
    - exists ∅. split; [done|]. intros k. apply lookup_empty.
    - apply Forall_app in Hrect as [Hl Hx%Forall_inv].
      destruct (IH Hl) as (m & Hm & Hspec).
      destruct (normalized_row_Ok (columns tgt_chunk) x Hx) as (dx & Hdx & _).
      exists (<[normalized_key (columns tgt_chunk) pk_col x := dx]> m).
      split.
      + rewrite foldM_app, Hm. simpl. unfold f at 1.
        rewrite getitem_Ok_cell by done. simpl. by rewrite Hdx.
      + intros k. rewrite filter_app, filter_cons, filter_nil.
        destruct (decide (normalized_key (columns tgt_chunk) pk_col x = k))
          as [<-|Hne].
        * rewrite last_snoc. exists dx. split; [apply lookup_insert_eq|done].
        * rewrite app_nil_r, lookup_insert_ne by done. apply Hspec. }
  destruct (df_empty tgt_chunk) eqn:Hempty; [|by exists m].
  exists ∅. split; [done|]. intros k.
  unfold df_empty in Hempty.
  destruct (rows tgt_chunk) as [|r rws]; [apply lookup_empty|].
  destruct (columns tgt_chunk); [by apply elem_of_nil in Hpk | done].
Qed.

(** The loop body returns the expected outcome. *)
Lemma compare_row_expected src_chunk tgt_chunk pk_col m row :
  rectangular tgt_chunk → pk_col ∈ columns tgt_chunk →
  pk_col ∈ columns src_chunk → NoDup (columns src_chunk) →
  build_tgt_map tgt_chunk pk_col = Ok m →
  length row = length (columns src_chunk) →
  compare_row m (columns src_chunk) pk_col row
  = Ok (expected_outcome src_chunk tgt_chunk pk_col row).
Proof.
  intros Ht Hpkt Hpks Hnd Hm Hlen.
  destruct (build_tgt_map_last tgt_chunk pk_col Ht Hpkt) as (m' & Hm' & Hspec).
  rewrite Hm in Hm'. injection Hm' as <-.
  unfold compare_row, expected_outcome.
  rewrite getitem_Ok_cell by done. simpl.
  fold (normalized_key (columns src_chunk) pk_col row).
  specialize (Hspec (normalized_key (columns src_chunk) pk_col row)).
  destruct (last_with_key tgt_chunk pk_col _) as [t|] eqn:Hlast.
  - destruct Hspec as (d & -> & Hd).
    assert (t ∈ rows tgt_chunk) as Hin.
    { unfold last_with_key in Hlast. apply last_Some_elem_of in Hlast.
      by apply list_elem_of_filter in Hlast as [_ ?]. }
    destruct (normalized_row_Ok (columns tgt_chunk) t) as (d' & Hd' & Hget).
    { by eapply Forall_forall in Ht. }
    rewrite Hd in Hd'. injection Hd' as <-.
    rewrite (row_mismatch_exact _ (columns tgt_chunk) _ _ t) by done.
    simpl. by destruct (differing_columns _ _ _ _ _).
  - by rewrite Hspec.
Qed.

(** The outcomes of a chunk are the expected outcomes of its rows. *)
Lemma chunk_outcomes_expected (src_chunk tgt_chunk : DataFrame)
    (pk_col : pystr) :
  rectangular src_chunk → pk_col ∈ columns src_chunk →
  NoDup (columns src_chunk) →
  rectangular tgt_chunk → pk_col ∈ columns tgt_chunk →
  chunk_outcomes src_chunk tgt_chunk pk_col
  = Ok (map (expected_outcome src_chunk tgt_chunk pk_col) (rows src_chunk)).
Proof.
  intros Hs Hpks Hnd Ht Hpkt.
  destruct (build_tgt_map_Ok tgt_chunk pk_col Ht Hpkt) as (m & Hm & _).
  unfold chunk_outcomes. rewrite Hm. simpl.
  apply mapM_result_map.
  intros row Hrow. eapply compare_row_expected; try done.
  by eapply Forall_forall in Hs.
Qed.

(** X10. On rectangular frames that hold the key column, the column labels
    of each frame being distinct, a chunk comparison returns the tally of
    the expected outcomes of the source rows: a row is missing when no
    target row has its normalized key; otherwise it is compared with the
    last target row with that key, and the mismatch record lists exactly the
    non-key columns whose normalized cells differ, in column order, with
    both normalized values. *)
Theorem compare_chunk_expected (src_chunk tgt_chunk : DataFrame)
    (pk_col : pystr) :
  rectangular src_chunk → pk_col ∈ columns src_chunk →
  NoDup (columns src_chunk) →
  rectangular tgt_chunk → pk_col ∈ columns tgt_chunk →
  NoDup (columns tgt_chunk) →
  compare_chunk src_chunk tgt_chunk pk_col
  = Ok (tally_all (map (expected_outcome src_chunk tgt_chunk pk_col)
                       (rows src_chunk))).
Proof.
  intros Hs Hpks Hnd Ht Hpkt _.
  rewrite compare_chunk_outcomes.
  by rewrite chunk_outcomes_expected.
Qed.

Lemma compare_chunk_expected_witness :
  compare_chunk orders_src orders_tgt (py "pk")
  = Ok {| diffs := [MISSING_IN_TARGET (py "2");
                    MISMATCH (py "3") [(py "a", (py "Z", py "ZZ"))];
                    MISSING_IN_TARGET (py "4")];
          matched := 1; missing := 2; mismatched := 1; checked := 4 |}.
Proof.
  rewrite (compare_chunk_expected orders_src orders_tgt (py "pk"));
    [vm_compute; reflexivity | by_compute..].
Defined.

Lemma tally_all_missing (keys : list pystr) acc :
  foldl tally acc (map (λ k, Some (MISSING_IN_TARGET k)) keys)
  = {| diffs := diffs acc ++ map MISSING_IN_TARGET keys;
       matched := matched acc;
       missing := missing acc + Z.of_nat (length keys);
       mismatched := mismatched acc;
       checked := checked acc + Z.of_nat (length keys) |}.
Proof.
  revert acc. induction keys as [|k keys IH]; intros acc.
  - simpl. rewrite app_nil_r. apply ChunkResult_eq; simpl; first [done|lia].
  - simpl map. simpl foldl. rewrite IH.
    apply ChunkResult_eq; simpl; rewrite <-?app_assoc; first [done|lia].
Qed.

(** X11. Against an empty target chunk (no rows, or no columns), whether or
    not it has the key column, every row of a rectangular source chunk
    that holds the key column and has distinct column labels is reported
    missing, in row order, under its normalized key. *)
Theorem compare_chunk_empty_target (src_chunk tgt_chunk : DataFrame)
    (pk_col : pystr) :
  rectangular src_chunk → pk_col ∈ columns src_chunk →
  NoDup (columns src_chunk) →
  df_empty tgt_chunk = true →
  compare_chunk src_chunk tgt_chunk pk_col
  = Ok {| diffs := map MISSING_IN_TARGET (normalized_keys src_chunk pk_col);
          matched := 0;
          missing := df_len src_chunk;
          mismatched := 0;
          checked := df_len src_chunk |}.
Proof.
  intros Hs Hpk _ Hempty.
  rewrite compare_chunk_outcomes. unfold chunk_outcomes, build_tgt_map.
  rewrite Hempty. simpl.
  rewrite (mapM_result_map _
             (λ row, Some (MISSING_IN_TARGET
                             (normalized_key (columns src_chunk) pk_col row)))).
  - simpl. f_equal.
    rewrite <-(map_map (normalized_key (columns src_chunk) pk_col)
                 (λ k, Some (MISSING_IN_TARGET k))).
    rewrite tally_all_missing. unfold normalized_keys, df_len.
    apply ChunkResult_eq; simpl; rewrite ?length_map; first [done|lia].
  - intros row Hrow. unfold compare_row.
    rewrite getitem_Ok_cell; [|by eapply Forall_forall in Hs|done].
    simpl. by rewrite lookup_empty.
Qed.

Lemma compare_chunk_empty_target_witness :
  compare_chunk orders_src {| columns := [py "id"]; rows := [] |} (py "pk")
  = Ok {| diffs := [MISSING_IN_TARGET (py "1"); MISSING_IN_TARGET (py "2");
                    MISSING_IN_TARGET (py "3"); MISSING_IN_TARGET (py "4")];
          matched := 0; missing := 4; mismatched := 0; checked := 4 |}.
Proof.
  rewrite (compare_chunk_empty_target orders_src
             {| columns := [py "id"]; rows := [] |} (py "pk"));
    [vm_compute; reflexivity | by_compute | by_compute | by_compute
     | reflexivity].
Defined.

(** X12. A chunk comparison raises [KeyError(pk_col)] when a target chunk
    that is not empty lacks the key column, and when a source chunk with at
    least one row lacks it, the target chunk being rectangular with
    distinct column labels and either empty or holding the key column. *)
Theorem compare_chunk_key_error (src_chunk tgt_chunk : DataFrame)
    (pk_col : pystr) :
  (df_empty tgt_chunk = false → pk_col ∉ columns tgt_chunk →
   compare_chunk src_chunk tgt_chunk pk_col = Raise (KeyError pk_col))
  ∧ (rectangular tgt_chunk → NoDup (columns tgt_chunk) →
     pk_col ∈ columns tgt_chunk ∨ df_empty tgt_chunk = true →
     rows src_chunk ≠ [] → pk_col ∉ columns src_chunk →
     compare_chunk src_chunk tgt_chunk pk_col = Raise (KeyError pk_col)).
Proof.
  split.
  - intros Hempty Hpk. unfold compare_chunk, build_tgt_map. rewrite Hempty.
    unfold df_empty in Hempty.
    destruct (rows tgt_chunk) as [|r rws]; [done|].
    cbn [foldM]. by rewrite getitem_absent.
  - intros Ht _ Hpkt Hrows Hpk.
    assert (∃ m, build_tgt_map tgt_chunk pk_col = Ok m) as [m Hm].
    { destruct Hpkt as [Hpkt|Hempty].
      - destruct (build_tgt_map_Ok tgt_chunk pk_col Ht Hpkt) as (m & Hm & _).
        by exists m.
      - exists ∅. unfold build_tgt_map. by rewrite Hempty. }
    unfold compare_chunk. rewrite Hm. simpl.
    destruct (rows src_chunk) as [|r rws]; [done|].
    cbn [foldM]. unfold compare_row at 1. by rewrite getitem_absent.
Qed.

Lemma compare_chunk_key_error_witness :
  compare_chunk orders_src orders_tgt (py "id") = Raise (KeyError (py "id"))
  ∧ compare_chunk (read_blob_to_df (csv "id,a|1,X")) orders_tgt (py "pk")
    = Raise (KeyError (py "pk")).
Proof.
  split.
  - apply (proj1 (compare_chunk_key_error orders_src orders_tgt (py "id")));
      [reflexivity|].
    apply (bool_decide_eq_false_1 (py "id" ∈ columns orders_tgt)).
    vm_compute. reflexivity.
  - apply (proj2 (compare_chunk_key_error (read_blob_to_df (csv "id,a|1,X"))
                    orders_tgt (py "pk")));
      [by_compute | by_compute | left; by_compute | discriminate |].
    apply (bool_decide_eq_false_1
             (py "pk" ∈ columns (read_blob_to_df (csv "id,a|1,X")))).
    vm_compute. reflexivity.
Defined.

(** ** Diff records follow the source rows *)

Lemma compare_row_pk m cols pk_col row d :
  compare_row m cols pk_col row = Ok (Some d) →
  diff_pk d = normalized_key cols pk_col row.
Proof.
  unfold compare_row. intros (v & Hv & Hrest)%bind_Ok.
  unfold normalized_key. rewrite (getitem_cell _ _ _ _ Hv).
  destruct (m !! normalize v) as [tgt_row|]; [|by injection Hrest as <-].
  apply bind_Ok in Hrest as (mm & _ & Hrest).
  destruct mm; [done|]. by injection Hrest as <-.
Qed.

Lemma outcomes_pk_sublist m cols pk_col rws os :
  Forall2 (λ row o, compare_row m cols pk_col row = Ok o) rws os →
  diff_pk <$> omap id os `sublist_of` normalized_key cols pk_col <$> rws.
Proof.
  induction 1 as [|row o rws os Ho _ IH]; [done|].
  rewrite fmap_cons. destruct o as [d|].
  - change (omap id (Some d :: os)) with (d :: omap id os).
    rewrite fmap_cons, (compare_row_pk _ _ _ _ _ Ho). by constructor.
  - change (omap id (None :: os)) with (omap id os). by constructor.
Qed.

(** X13. The diff records of a chunk result follow the source rows: their
    keys are normalized keys of source rows of the chunk, in row order, one
    record at most per row. The key of every diff record of a report is the
    normalized key of a source row; a key that occurs only in the target is
    never reported. *)
Theorem diffs_follow_source :
  (∀ src_chunk tgt_chunk pk_col res,
     compare_chunk src_chunk tgt_chunk pk_col = Ok res →
     diff_pk <$> diffs res `sublist_of` normalized_keys src_chunk pk_col)
  ∧ (∀ host source_blob target_blob pk_col timing report d,
       process_parallel_blob host source_blob target_blob pk_col timing
       = Ok report →
       d ∈ diffs (totals report) →
       diff_pk d ∈ normalized_keys (read_blob_to_df source_blob) pk_col).
Proof.
  split.
  - intros src_chunk tgt_chunk pk_col res (os & Hos & ->)%compare_chunk_Ok.
    destruct (tally_outcomes no_result os) as (-> & _). simpl.
    unfold chunk_outcomes in Hos. apply bind_Ok in Hos as (m & _ & Hos).
    apply mapM_result_Ok in Hos. by apply (outcomes_pk_sublist m).
  - intros host source_blob target_blob pk_col timing report d Hrun Hd.
    apply process_parallel_blob_outcomes in Hrun
      as (os & Hos & _ & _ & _ & _ & Hperm & _).
    rewrite Hperm in Hd.
    apply run_outcomes_Ok in Hos as (oss & Hoss & ->).
    set (src_df := read_blob_to_df source_blob) in *.
    assert (∀ chunks,
              (∀ c, c ∈ chunks → c ∈ source_chunks src_df
                                        (chunk_size_of host src_df)) →
              Forall2 (λ src_chunk os_c,
                         ∃ tgt_chunk,
                           target_subset (read_blob_to_df target_blob)
                             src_chunk pk_col = Ok tgt_chunk
                           ∧ chunk_outcomes src_chunk tgt_chunk pk_col
                             = Ok os_c) chunks oss →
              d ∈ omap id (concat oss) →
              diff_pk d ∈ normalized_keys src_df pk_col) as Hgo.
    { clear. intros chunks Hsub Hall. revert Hsub.
      induction Hall as [|c os_c chunks oss (t & _ & Hos) _ IH];
        intros Hsub Hd; [by apply elem_of_nil in Hd|].
      simpl in Hd. rewrite omap_app, elem_of_app in Hd.
      destruct Hd as [Hd|Hd].
      - destruct (source_chunks_elem _ _ _ (Hsub c ltac:(left)))
          as (Hcols & _ & Hrows).
        unfold chunk_outcomes in Hos. apply bind_Ok in Hos as (m & _ & Hos).
        apply mapM_result_Ok in Hos.
        apply (outcomes_pk_sublist m) in Hos.
        apply (list_elem_of_fmap_2 diff_pk) in Hd.
        apply (sublist_subseteq _ _ Hos) in Hd.
        apply list_elem_of_fmap in Hd as (row & -> & Hrow).
        rewrite Hcols. unfold normalized_keys.
        apply (list_elem_of_fmap_2 (normalized_key (columns src_df) pk_col)).
        by apply Hrows.
      - apply IH; [|done]. intros c' Hc'. apply Hsub. by right. }
    by eapply Hgo.
Qed.

Lemma diffs_follow_source_witness :
  diff_pk <$> [MISSING_IN_TARGET (py "2");
               MISMATCH (py "3") [(py "a", (py "Z", py "ZZ"))];
               MISSING_IN_TARGET (py "4")]
  `sublist_of` normalized_keys orders_src (py "pk").
Proof.
  apply (proj1 diffs_follow_source orders_src orders_tgt (py "pk")
           {| diffs := [MISSING_IN_TARGET (py "2");
                        MISMATCH (py "3") [(py "a", (py "Z", py "ZZ"))];
                        MISSING_IN_TARGET (py "4")];
              matched := 1; missing := 2; mismatched := 1; checked := 4 |}).
  vm_compute. reflexivity.
Defined.

(** ** Chunks *)

(** X14. For a chunk size of at least 1 there are [ceil(len / chunk_size)]
    chunks; chunk [i] holds the rows from [i * chunk_size] on, none is
    empty, and all but the last hold exactly [chunk_size] rows. *)
Theorem source_chunks_sizes (src_df : DataFrame) (chunk_size : Z) :
  1 ≤ chunk_size →
  Z.of_nat (length (source_chunks src_df chunk_size))
  = ceil_div (df_len src_df) chunk_size
  ∧ ∀ (i : nat) chunk,
      source_chunks src_df chunk_size !! i = Some chunk →
      rows chunk = take (Z.to_nat chunk_size)
                        (drop (i * Z.to_nat chunk_size) (rows src_df))
      ∧ 1 ≤ df_len chunk ≤ chunk_size
      ∧ ((S i < length (source_chunks src_df chunk_size))%nat →
         df_len chunk = chunk_size).
Proof.
  intros Hc. unfold source_chunks.
  pose proof (ceil_div_bounds (df_len src_df) chunk_size) as Hk.
  assert (0 ≤ ceil_div (df_len src_df) chunk_size) as Hk0.
  { unfold df_len in *. nia. }
  rewrite length_map, length_seqZ. split; [lia|].
  intros i chunk Hi. rewrite list_lookup_fmap in Hi.
  destruct (seqZ 0 _ !! i) as [j|] eqn:Hj; [|done].
  injection Hi as <-. apply lookup_seqZ in Hj as [-> Hlt].
  rewrite Z.add_0_l. unfold df_len. rewrite !rows_src_chunk_at.
  fold (df_len src_df).
  assert (Z.of_nat i * chunk_size < df_len src_df) as Hstart by nia.
  assert (Z.to_nat (Z.of_nat i * chunk_size) = (i * Z.to_nat chunk_size)%nat)
    as -> by nia.
  assert (Z.of_nat (i * Z.to_nat chunk_size) = Z.of_nat i * chunk_size)
    as Hnat by nia.
  assert ((S i < Z.to_nat (ceil_div (df_len src_df) chunk_size))%nat →
          Z.of_nat i * chunk_size + chunk_size < df_len src_df) as Hfull.
  { intros Hnext. nia. }
  replace ((Z.of_nat i + 1) * chunk_size)
    with (Z.of_nat i * chunk_size + chunk_size) by lia.
  unfold df_len in *.
  generalize dependent (Z.of_nat i * chunk_size). intros a Hstart Hnat Hfull.
  generalize dependent (i * Z.to_nat chunk_size)%nat. intros b Hnat.
  split; [|split].
  - destruct (Z.le_gt_cases (a + chunk_size)
                (Z.of_nat (length (rows src_df)))) as [Hle|Hgt].
    + rewrite Z.min_l by done. f_equal. lia.
    + rewrite Z.min_r by lia. rewrite !take_ge; [done| |];
        rewrite length_drop; lia.
  - rewrite length_take, length_drop. lia.
  - intros Hnext. specialize (Hfull Hnext).
    rewrite length_take, length_drop. lia.
Qed.

Lemma source_chunks_sizes_witness :
  Z.of_nat (length (source_chunks orders_src 3)) = 2.
Proof.
  change 2 with (ceil_div (df_len orders_src) 3).
  apply (source_chunks_sizes orders_src 3). lia.
Defined.

(** ** Row counts of a run *)

Lemma ceil_div_0 b : 1 ≤ b → ceil_div 0 b = 0.
Proof. intros Hb. unfold ceil_div. apply Z.div_small. lia. Qed.

Lemma as_completed_nil {A} w timing : as_completed w (@nil A) timing = [].
Proof. done. Qed.

(** X15. A source table without rows gives, against any target table, as
    soon as both hold the key column, a report with no diff record and all
    counters at zero. *)
Theorem process_parallel_blob_empty_source (host : Host)
    (source_blob target_blob : Csv) (pk_col : pystr) (timing : list nat) :
  records source_blob = [] →
  pk_col ∈ header source_blob → pk_col ∈ header target_blob →
  process_parallel_blob host source_blob target_blob pk_col timing
  = Ok {| total_source := 0;
          total_target := Z.of_nat (length (records target_blob));
          totals := no_result;
          content := join_lines
                       (summary 0 (Z.of_nat (length (records target_blob)))
                          0 0) |}.
Proof.
  intros Hempty Hs Ht.
  rewrite process_parallel_blob_runs by done.
  assert (df_len (read_blob_to_df source_blob) = 0) as Hlen.
  { unfold df_len. by rewrite read_blob_to_df_rows, Hempty. }
  assert (df_len (read_blob_to_df target_blob)
          = Z.of_nat (length (records target_blob))) as Hlen'.
  { unfold df_len. by rewrite read_blob_to_df_rows, length_map. }
  unfold submit_all, source_chunks.
  rewrite Hlen, ceil_div_0 by apply chunk_size_of_pos.
  simpl. rewrite ?as_completed_nil. simpl. by rewrite Hlen'.
Qed.

Lemma process_parallel_blob_empty_source_witness :
  totals <$> returned (process_parallel_blob host8 (csv "pk,a")
                         (csv "pk,a|1,X|2,Y") (py "pk") [])
  = Some no_result.
Proof.
  rewrite (process_parallel_blob_empty_source host8 (csv "pk,a")
             (csv "pk,a|1,X|2,Y") (py "pk") []);
    [reflexivity | reflexivity | by_compute | by_compute].
Defined.

(** X16. In every report a run returns, the row counts are the numbers of
    records of the two blobs, every source row is checked exactly once,
    and the three outcome counters add up to the source row count. *)
Theorem report_row_counts (host : Host) (source_blob target_blob : Csv)
    (pk_col : pystr) (timing : list nat) (report : Report) :
  process_parallel_blob host source_blob target_blob pk_col timing = Ok report →
  total_source report = Z.of_nat (length (records source_blob))
  ∧ total_target report = Z.of_nat (length (records target_blob))
  ∧ checked (totals report) = total_source report
  ∧ matched (totals report) + missing (totals report)
    + mismatched (totals report) = total_source report
  ∧ 0 ≤ matched (totals report)
  ∧ 0 ≤ missing (totals report)
  ∧ 0 ≤ mismatched (totals report).
Proof.
  intros Hrun.
  destruct (process_parallel_blob_outcomes _ _ _ _ _ _ Hrun)
    as (os & Hos & -> & -> & -> & -> & _ & -> & ->).
  apply run_outcomes_length in Hos; [|apply chunk_size_of_pos].
  unfold df_len. rewrite !read_blob_to_df_rows, !length_map in *.
  rewrite count_partition, Hos.
  repeat split; try done; apply count_nonneg.
Qed.

Lemma report_row_counts_witness :
  ∃ report,
    process_parallel_blob host8 (csv "pk,a|1,X|2,Y|3,Z") (csv "pk,a|1,X|3,W")
      (py "pk") [] = Ok report
    ∧ total_source report = 3 ∧ total_target report = 2
    ∧ checked (totals report) = total_source report.
Proof.
  eexists. split; [vm_compute; reflexivity|].
  split; [reflexivity|]. split; [reflexivity|].
  apply (report_row_counts host8 (csv "pk,a|1,X|2,Y|3,Z") (csv "pk,a|1,X|3,W")
           (py "pk") []).
  vm_compute. reflexivity.
Defined.

(** ** Target rows outside the source *)

Lemma DataFrame_eq (a b : DataFrame) :
  columns a = columns b → rows a = rows b → a = b.
Proof. destruct a, b; simpl; congruence. Qed.

Lemma mapM_result_ext {A B} (f g : A → result B) l :
  (∀ x, x ∈ l → f x = g x) → mapM_result f l = mapM_result g l.
Proof.
  induction l as [|x l IH]; intros Hall; simpl; [done|].
  rewrite Hall by left. rewrite IH; [done|].
  intros y Hy. apply Hall. by right.
Qed.

Lemma raw_keys_chunk src_df chunk_size src_chunk pk_col k :
  src_chunk ∈ source_chunks src_df chunk_size →
  k ∈ raw_keys src_chunk pk_col → k ∈ raw_keys src_df pk_col.
Proof.
  intros Hchunk. destruct (source_chunks_elem _ _ _ Hchunk) as (Hcols & _ & Hsub).
  unfold raw_keys. rewrite Hcols.
  intros (row & -> & Hrow)%list_elem_of_fmap.
  apply (list_elem_of_fmap_2 (λ r, cell (columns src_df) r pk_col)).
  by apply Hsub.
Qed.

(** The target subset of a chunk depends only on the relevant target
    rows. *)
Lemma target_subset_relevant src_df tgt1 tgt2 pk_col chunk_size src_chunk :
  rectangular src_df → pk_col ∈ columns src_df →
  rectangular tgt1 → rectangular tgt2 →
  columns tgt1 = columns tgt2 → pk_col ∈ columns tgt1 →
  relevant_rows src_df tgt1 pk_col = relevant_rows src_df tgt2 pk_col →
  src_chunk ∈ source_chunks src_df chunk_size →
  target_subset tgt1 src_chunk pk_col = target_subset tgt2 src_chunk pk_col.
Proof.
  intros Hs Hpks H1 H2 Hcols Hpk Hrel Hchunk.
  destruct (source_chunks_elem _ _ _ Hchunk) as (Hccols & Hcrect & _).
  specialize (Hcrect Hs).
  destruct (target_subset_Ok tgt1 src_chunk pk_col H1 Hpk Hcrect)
    as (t1 & -> & Hc1 & Hr1); [by rewrite Hccols|].
  destruct (target_subset_Ok tgt2 src_chunk pk_col H2) as (t2 & -> & Hc2 & Hr2);
    [by rewrite <-Hcols | done | by rewrite Hccols |].
  f_equal. apply DataFrame_eq; [congruence|].
  rewrite Hr1, Hr2.
  assert (∀ tgt,
            filter (λ row, cell (columns tgt) row pk_col
                           ∈ raw_keys src_chunk pk_col) (rows tgt)
            = filter (λ row, cell (columns tgt) row pk_col
                             ∈ raw_keys src_chunk pk_col)
                     (relevant_rows src_df tgt pk_col)) as Hfilter.
  { intros tgt. unfold relevant_rows. rewrite list_filter_filter.
    apply list_filter_iff. intros row. split; [|by intros [? _]].
    intros Hin. split; [done|]. by eapply raw_keys_chunk. }
  rewrite (Hfilter tgt1), (Hfilter tgt2), Hrel. by rewrite Hcols.
Qed.

(** X17. Target rows whose raw key is the raw key of no source row have no
    influence on a run: two target tables with the same columns and the
    same relevant rows give the same counters and the same diff
    records. *)
Theorem target_only_rows_ignored (host : Host)
    (source_blob target_blob1 target_blob2 : Csv) (pk_col : pystr)
    (timing : list nat) :
  Csv_rectangular source_blob → pk_col ∈ header source_blob →
  Csv_rectangular target_blob1 → Csv_rectangular target_blob2 →
  header target_blob1 = header target_blob2 → pk_col ∈ header target_blob1 →
  relevant_rows (read_blob_to_df source_blob) (read_blob_to_df target_blob1)
    pk_col
  = relevant_rows (read_blob_to_df source_blob) (read_blob_to_df target_blob2)
      pk_col →
  totals <$> returned (process_parallel_blob host source_blob target_blob1
                         pk_col timing)
  = totals <$> returned (process_parallel_blob host source_blob target_blob2
                           pk_col timing).
Proof.
  intros Hs Hpks H1 H2 Hhdr Hpk Hrel.
  rewrite !process_parallel_blob_runs; try done;
    [|by rewrite read_blob_to_df_columns, <-Hhdr].
  assert (submit_all (read_blob_to_df source_blob)
            (read_blob_to_df target_blob1) pk_col
            (chunk_size_of host (read_blob_to_df source_blob))
          = submit_all (read_blob_to_df source_blob)
              (read_blob_to_df target_blob2) pk_col
              (chunk_size_of host (read_blob_to_df source_blob))) as ->.
  { unfold submit_all. apply mapM_result_ext. intros chunk Hchunk.
    by rewrite (target_subset_relevant (read_blob_to_df source_blob)
                  (read_blob_to_df target_blob1)
                  (read_blob_to_df target_blob2) pk_col _ chunk)
      by (done || by apply read_blob_to_df_rectangular). }
  destruct (submit_all _ _ _ _) as [fs|]; simpl; [|done].
  by destruct (collect _).
Qed.

Lemma target_only_rows_ignored_witness :
  totals <$> returned (process_parallel_blob host8 (csv "pk,a|1,X|2,Y|3,Z")
                         (csv "pk,a|1,X|7,Q|3,W") (py "pk") [])
  = totals <$> returned (process_parallel_blob host8 (csv "pk,a|1,X|2,Y|3,Z")
                           (csv "pk,a|8,R|1,X|3,W|9,S") (py "pk") []).
Proof.
  apply (target_only_rows_ignored host8 (csv "pk,a|1,X|2,Y|3,Z")
           (csv "pk,a|1,X|7,Q|3,W") (csv "pk,a|8,R|1,X|3,W|9,S") (py "pk") []);
    first [by_compute | vm_compute; reflexivity].
Defined.

(** ** Missing and mismatched rows of a run *)

Lemma Forall2_elem_of_impl {A B} (P Q : A → B → Prop) l k :
  Forall2 P l k → (∀ x y, x ∈ l → P x y → Q x y) → Forall2 Q l k.
Proof.
  induction 1 as [|x y l k Hxy _ IH]; intros Himp; constructor.
  - apply Himp; [left | done].
  - apply IH. intros x' y' Hin. apply Himp. by right.
Qed.

(** What holds of every row as the loop body of its chunk decides it holds
    of the outcomes of the rows of a run. *)
Lemma run_outcomes_rows src_df tgt_df pk_col chunk_size os
    (R : list value → option DiffRecord → Prop) :
  1 ≤ chunk_size →
  run_outcomes src_df tgt_df pk_col chunk_size = Ok os →
  (∀ src_chunk tgt_chunk m row o,
     src_chunk ∈ source_chunks src_df chunk_size →
     target_subset tgt_df src_chunk pk_col = Ok tgt_chunk →
     build_tgt_map tgt_chunk pk_col = Ok m →
     row ∈ rows src_chunk →
     compare_row m (columns src_chunk) pk_col row = Ok o →
     R row o) →
  Forall2 R (rows src_df) os.
Proof.
  intros Hc (oss & Hoss & ->)%run_outcomes_Ok HR.
  destruct (source_chunks_partition src_df chunk_size Hc) as [<- _].
  apply Forall2_concat, Forall2_fmap_l.
  eapply Forall2_elem_of_impl; [apply Hoss|].
  intros chunk os_c Hchunk (t & Ht & Hos).
  unfold chunk_outcomes in Hos. apply bind_Ok in Hos as (m & Hm & Hos).
  apply mapM_result_Ok in Hos.
  eapply Forall2_elem_of_impl; [apply Hos|].
  intros row o Hrow Ho. by eapply HR.
Qed.

(** In the chunk of a source row, the target subset holds only relevant
    rows, and every target row with the raw key of the source row. *)
Lemma target_subset_rows src_df tgt_df pk_col chunk_size src_chunk tgt_chunk :
  rectangular src_df → pk_col ∈ columns src_df →
  rectangular tgt_df → pk_col ∈ columns tgt_df →
  src_chunk ∈ source_chunks src_df chunk_size →
  target_subset tgt_df src_chunk pk_col = Ok tgt_chunk →
  columns tgt_chunk = columns tgt_df
  ∧ rectangular tgt_chunk
  ∧ (∀ t, t ∈ rows tgt_chunk → t ∈ relevant_rows src_df tgt_df pk_col)
  ∧ (∀ t row, t ∈ rows tgt_df → row ∈ rows src_chunk →
              cell (columns tgt_df) t pk_col
              = cell (columns src_df) row pk_col →
              t ∈ rows tgt_chunk).
Proof.
  intros Hs Hpks Ht Hpkt Hchunk Hsub.
  destruct (source_chunks_elem _ _ _ Hchunk) as (Hcols & Hrect & _).
  specialize (Hrect Hs).
  destruct (target_subset_Ok tgt_df src_chunk pk_col Ht Hpkt Hrect)
    as (tgt_chunk' & Hsub' & Htcols & Htrows); [by rewrite Hcols|].
  rewrite Hsub in Hsub'. injection Hsub' as <-.
  split; [done|]. split; [|split].
  - destruct tgt_chunk as [tc tr]. simpl in *. subst tc.
    by eapply rectangular_filter.
  - intros t. rewrite Htrows. unfold relevant_rows.
    rewrite !list_elem_of_filter. intros [Hkey Hin]. split; [|done].
    by eapply raw_keys_chunk.
  - intros t row Hin Hrow Hraw. rewrite Htrows.
    apply list_elem_of_filter. split; [|done].
    rewrite Hraw. unfold raw_keys. rewrite Hcols.
    by apply (list_elem_of_fmap_2 (λ r, cell (columns src_df) r pk_col)).
Qed.

Lemma compare_row_missing_or_mismatch src_df tgt_df pk_col chunk_size
    src_chunk tgt_chunk m row o :
  rectangular src_df → pk_col ∈ columns src_df →
  rectangular tgt_df → pk_col ∈ columns tgt_df →
  src_chunk ∈ source_chunks src_df chunk_size →
  target_subset tgt_df src_chunk pk_col = Ok tgt_chunk →
  build_tgt_map tgt_chunk pk_col = Ok m →
  row ∈ rows src_chunk →
  compare_row m (columns src_chunk) pk_col row = Ok o →
  (no_candidate src_df tgt_df pk_col row →
   o = Some (MISSING_IN_TARGET (normalized_key (columns src_df) pk_col row)))
  ∧ (differs_from_target src_df tgt_df pk_col row →
     ∃ mm, mm ≠ []
           ∧ o = Some (MISMATCH (normalized_key (columns src_df) pk_col row)
                         mm)).
Proof.
  intros Hs Hpks Ht Hpkt Hchunk Hsub Hm Hrow Ho.
  destruct (target_subset_rows _ _ _ _ _ _ Hs Hpks Ht Hpkt Hchunk Hsub)
    as (Htcols & Htrect & Hrel & Hraw).
  destruct (source_chunks_elem _ _ _ Hchunk) as (Hcols & Hrect & _).
  specialize (Hrect Hs).
  destruct (build_tgt_map_Ok tgt_chunk pk_col Htrect) as (m' & Hm' & Hspec);
    [by rewrite Htcols|].
  rewrite Hm in Hm'. injection Hm' as <-.
  destruct (compare_row_Ok m (columns src_chunk) pk_col row)
    as (o' & Ho' & Hmatch); [by eapply Forall_forall in Hrect
                            | by rewrite Hcols |].
  rewrite Ho in Ho'. injection Ho' as <-.
  rewrite Hcols, Htcols in *.
  set (k := normalized_key (columns src_df) pk_col row) in *.
  destruct (Hspec k) as [[Hk Hnone]|(t & d & Hin & Hkey & Hd & Hk)];
    rewrite Hk in Hmatch.
  - split; [done|]. intros [(t & Hin & Hraw') _]. exfalso.
    apply (Hnone t); [by eapply Hraw|].
    unfold k, normalized_key. by rewrite Hraw'.
  - split.
    + intros Hno. destruct (Hno t); [by apply Hrel | done].
    + intros [_ Hdiff].
      destruct (Hdiff t) as (c & Hc & Hne & Hneq); [|done|].
      { specialize (Hrel t Hin). unfold relevant_rows in Hrel.
        by apply list_elem_of_filter in Hrel as [_ ?]. }
      destruct Hmatch as [Hiff [->|(mm & ->)]].
      * exfalso. apply Hneq.
        destruct (normalized_row_Ok (columns tgt_df) t) as (d' & Hd' & Hget).
        { specialize (Hrel t Hin). unfold relevant_rows in Hrel.
          apply list_elem_of_filter in Hrel as [_ Hrel].
          by eapply Forall_forall in Ht. }
        rewrite Hd in Hd'. injection Hd' as <-. rewrite <-Hget.
        by apply (proj1 Hiff).
      * exists mm. split; [|done]. intros ->.
        unfold compare_row in Ho.
        apply bind_Ok in Ho as (v & Hv & Ho).
        destruct (m !! normalize v); [|done].
        apply bind_Ok in Ho as (mm' & _ & Ho). by destruct mm'.
Qed.

Lemma report_holds_outcome (os : list (option DiffRecord)) i d ds :
  os !! i = Some (Some d) → ds ≡ₚ omap id os → d ∈ ds.
Proof.
  intros Hi Hperm. rewrite Hperm. apply list_elem_of_omap.
  exists (Some d). split; [by eapply list_elem_of_lookup_2 | done].
Qed.

(** X18. On rectangular tables that hold the key column, a source row is
    reported missing, under its normalized key, when no target row whose
    raw key occurs in the source has its normalized key; in particular
    when its key differs from the target's only cosmetically and the raw
    key of the target row is the raw key of no source row. *)
Theorem row_without_candidate_missing (host : Host)
    (source_blob target_blob : Csv) (pk_col : pystr) (timing : list nat)
    (i : nat) (row : list value) :
  Csv_rectangular source_blob → Csv_rectangular target_blob →
  pk_col ∈ header source_blob → pk_col ∈ header target_blob →
  rows (read_blob_to_df source_blob) !! i = Some row →
  no_candidate (read_blob_to_df source_blob) (read_blob_to_df target_blob)
    pk_col row →
  ∃ report os,
    process_parallel_blob host source_blob target_blob pk_col timing
    = Ok report
    ∧ run_outcomes (read_blob_to_df source_blob) (read_blob_to_df target_blob)
        pk_col (chunk_size_of host (read_blob_to_df source_blob)) = Ok os
    ∧ os !! i
      = Some (Some (MISSING_IN_TARGET
                      (normalized_key (header source_blob) pk_col row)))
    ∧ MISSING_IN_TARGET (normalized_key (header source_blob) pk_col row)
      ∈ diffs (totals report).
Proof.
  intros Hs Ht Hpks Hpkt Hrow Hno.
  destruct (process_parallel_blob_rows host source_blob target_blob pk_col
              timing Hs Ht Hpks Hpkt)
    as (report & os & Hrun & Hos & _ & _ & _ & _ & Hperm).
  exists report, os. split; [done|]. split; [done|].
  assert (Forall2
            (λ row o,
               no_candidate (read_blob_to_df source_blob)
                 (read_blob_to_df target_blob) pk_col row →
               o = Some (MISSING_IN_TARGET
                           (normalized_key (header source_blob) pk_col row)))
            (rows (read_blob_to_df source_blob)) os) as Hall.
  { eapply run_outcomes_rows; [apply chunk_size_of_pos | exact Hos |].
    intros src_chunk tgt_chunk m row' o Hchunk Hsub Hm Hrow' Ho.
    eapply (compare_row_missing_or_mismatch (read_blob_to_df source_blob));
      eauto using read_blob_to_df_rectangular. }
  destruct (Forall2_lookup_l _ _ _ _ _ Hall Hrow) as (o & Ho & Hmiss).
  rewrite Ho, (Hmiss Hno). split; [done|].
  eapply report_holds_outcome; [|done]. by rewrite Ho, (Hmiss Hno).
Qed.

(** X19. On rectangular tables that hold the key column, a source row is
    reported as a mismatch, under its normalized key and with at least
    one differing column, when some target row has its raw key and every
    target row with its normalized key differs from it, after
    normalization, in some non-key source column. *)
Theorem row_differing_mismatched (host : Host)
    (source_blob target_blob : Csv) (pk_col : pystr) (timing : list nat)
    (i : nat) (row : list value) :
  Csv_rectangular source_blob → Csv_rectangular target_blob →
  pk_col ∈ header source_blob → pk_col ∈ header target_blob →
  rows (read_blob_to_df source_blob) !! i = Some row →
  differs_from_target (read_blob_to_df source_blob)
    (read_blob_to_df target_blob) pk_col row →
  ∃ report os mm,
    process_parallel_blob host source_blob target_blob pk_col timing
    = Ok report
    ∧ run_outcomes (read_blob_to_df source_blob) (read_blob_to_df target_blob)
        pk_col (chunk_size_of host (read_blob_to_df source_blob)) = Ok os
    ∧ mm ≠ []
    ∧ os !! i
      = Some (Some (MISMATCH (normalized_key (header source_blob) pk_col row)
                      mm))
    ∧ MISMATCH (normalized_key (header source_blob) pk_col row) mm
      ∈ diffs (totals report).
Proof.
  intros Hs Ht Hpks Hpkt Hrow Hdiff.
  destruct (process_parallel_blob_rows host source_blob target_blob pk_col
              timing Hs Ht Hpks Hpkt)
    as (report & os & Hrun & Hos & _ & _ & _ & _ & Hperm).
  assert (Forall2
            (λ row o,
               differs_from_target (read_blob_to_df source_blob)
                 (read_blob_to_df target_blob) pk_col row →
               ∃ mm, mm ≠ []
                     ∧ o = Some (MISMATCH
                                   (normalized_key (header source_blob)
                                      pk_col row) mm))
            (rows (read_blob_to_df source_blob)) os) as Hall.
  { eapply run_outcomes_rows; [apply chunk_size_of_pos | exact Hos |].
    intros src_chunk tgt_chunk m row' o Hchunk Hsub Hm Hrow' Ho.
    eapply (compare_row_missing_or_mismatch (read_blob_to_df source_blob));
      eauto using read_blob_to_df_rectangular. }
  destruct (Forall2_lookup_l _ _ _ _ _ Hall Hrow) as (o & Ho & Hmm).
  destruct (Hmm Hdiff) as (mm & Hne & ->).
  exists report, os, mm. repeat split; try done.
  by eapply report_holds_outcome.
Qed.

Lemma row_without_candidate_missing_witness :
  ∃ report os,
    process_parallel_blob host8 cosmetic_source cosmetic_target (py "pk") []
    = Ok report
    ∧ run_outcomes (read_blob_to_df cosmetic_source)
        (read_blob_to_df cosmetic_target) (py "pk")
        (chunk_size_of host8 (read_blob_to_df cosmetic_source)) = Ok os
    ∧ os !! 0%nat = Some (Some (MISSING_IN_TARGET (py "ab")))
    ∧ MISSING_IN_TARGET (py "ab") ∈ diffs (totals report).
Proof.
  apply (row_without_candidate_missing host8 cosmetic_source cosmetic_target
           (py "pk") [] 0%nat
           [VStr (py "a" ++ [PyStr.TAB] ++ py "b"); VStr (py "X")]);
    try by_compute.
  intros t Ht. vm_compute in Ht.
  repeat (apply elem_of_cons in Ht as [->|Ht]);
    [| |by apply elem_of_nil in Ht]; by vm_compute.
Defined.

Lemma row_differing_mismatched_witness :
  ∃ report os mm,
    process_parallel_blob host8 (csv "pk,a|1,X|2,Y") (csv "pk,a|2,Y|1,Z")
      (py "pk") [] = Ok report
    ∧ run_outcomes (read_blob_to_df (csv "pk,a|1,X|2,Y"))
        (read_blob_to_df (csv "pk,a|2,Y|1,Z")) (py "pk")
        (chunk_size_of host8 (read_blob_to_df (csv "pk,a|1,X|2,Y"))) = Ok os
    ∧ mm ≠ []
    ∧ os !! 0%nat = Some (Some (MISMATCH (py "1") mm))
    ∧ MISMATCH (py "1") mm ∈ diffs (totals report).
Proof.
  apply (row_differing_mismatched host8 (csv "pk,a|1,X|2,Y")
           (csv "pk,a|2,Y|1,Z") (py "pk") [] 0%nat
           [VStr (py "1"); VStr (py "X")]);
    try by_compute.
  split.
  - exists [VStr (py "1"); VStr (py "Z")].
    split; [by_compute | vm_compute; reflexivity].
  - intros t Ht Hkey. vm_compute in Ht.
    repeat (apply elem_of_cons in Ht as [->|Ht]);
      [| |by apply elem_of_nil in Ht]; [by vm_compute in Hkey|].
    exists (py "a"). split; [by_compute|]. by vm_compute.
Defined.

(** ** Order of the diff records *)

Lemma as_completed_short {A} (w : Z) (futures : list A) timing :
  1 ≤ w → (length futures ≤ 1)%nat →
  as_completed w futures timing = futures.
Proof.
  intros Hw Hlen.
  pose proof (as_completed_perm w futures timing Hw) as Hperm.
  destruct futures as [|f [|f' fs]]; simpl in Hlen; [| |lia].
  - by apply Permutation_nil_r in Hperm.
  - by apply Permutation_singleton_r in Hperm.
Qed.

Lemma source_chunks_single src_df chunk_size :
  1 ≤ chunk_size → df_len src_df ≤ chunk_size →
  (length (source_chunks src_df chunk_size) ≤ 1)%nat.
Proof.
  intros Hc Hlen. unfold source_chunks.
  rewrite length_map, length_seqZ.
  assert (ceil_div (df_len src_df) chunk_size < 2); [|lia].
  unfold ceil_div. apply Z.div_lt_upper_bound; lia.
Qed.

(** X20. When the source has at most 10000 rows, so that there is one chunk
    at most, the report does not depend on the timing of the pool, and its
    diff records are those of the source rows in source row order. *)
Theorem diffs_in_source_order (host : Host) (source_blob target_blob : Csv)
    (pk_col : pystr) (timing : list nat) (report : Report) :
  df_len (read_blob_to_df source_blob) ≤ 10000 →
  process_parallel_blob host source_blob target_blob pk_col timing = Ok report →
  (∀ timing',
     process_parallel_blob host source_blob target_blob pk_col timing'
     = Ok report)
  ∧ ∃ os,
      run_outcomes (read_blob_to_df source_blob) (read_blob_to_df target_blob)
        pk_col (chunk_size_of host (read_blob_to_df source_blob)) = Ok os
      ∧ diffs (totals report) = omap id os.
Proof.
  intros Hseq Hrun.
  destruct (process_parallel_blob_Ok_key _ _ _ _ _ _ Hrun) as [Hs Ht].
  set (src_df := read_blob_to_df source_blob) in *.
  set (tgt_df := read_blob_to_df target_blob) in *.
  assert (∀ fs timing0,
            submit_all src_df tgt_df pk_col (chunk_size_of host src_df) = Ok fs →
            as_completed (thread_count_of host src_df) fs timing0 = fs) as Hfs.
  { intros fs timing0 Hsub. apply as_completed_short;
      [apply thread_count_of_pos|].
    unfold submit_all in Hsub. apply mapM_result_length in Hsub.
    rewrite Hsub. apply source_chunks_single; [apply chunk_size_of_pos|].
    pose proof (auto_tune_chunk_sizes host (df_len src_df)) as Hin.
    fold (chunk_size_of host src_df) in Hin.
    assert (10000 ≤ chunk_size_of host src_df); [|lia].
    repeat (apply elem_of_cons in Hin as [->|Hin]); try lia.
    by apply elem_of_nil in Hin. }
  rewrite process_parallel_blob_runs in Hrun by done. fold src_df tgt_df in Hrun.
  destruct (submit_all src_df tgt_df pk_col (chunk_size_of host src_df))
    as [fs|] eqn:Hsub; [|done].
  simpl in Hrun. rewrite (Hfs fs timing eq_refl) in Hrun.
  split.
  - intros timing'. rewrite process_parallel_blob_runs by done.
    fold src_df tgt_df. rewrite Hsub. simpl.
    by rewrite (Hfs fs timing' eq_refl).
  - apply bind_Ok in Hrun as (sums & Hsums & [= <-]).
    apply collect_Ok in Hsums as (rs & -> & ->).
    apply submit_all_Ok, outcomes_of_futures in Hsub as (oss & Hoss & ->).
    exists (concat oss). split; [apply run_outcomes_Ok; by exists oss|].
    cbn [totals].
    destruct (merge_results no_result (tally_all <$> oss)) as (-> & _).
    by destruct (tally_all_sums oss) as (_ & _ & _ & _ & ->).
Qed.

Lemma diffs_in_source_order_witness :
  ∃ report,
    process_parallel_blob host8 (csv "pk,a|1,X|2,Y|3,Z") (csv "pk,a|1,X|3,W")
      (py "pk") [5%nat; 1%nat] = Ok report
    ∧ process_parallel_blob host8 (csv "pk,a|1,X|2,Y|3,Z") (csv "pk,a|1,X|3,W")
        (py "pk") [] = Ok report.
Proof.
  eexists. split; [vm_compute; reflexivity|].
  apply (diffs_in_source_order host8 (csv "pk,a|1,X|2,Y|3,Z")
           (csv "pk,a|1,X|3,W") (py "pk") [5%nat; 1%nat]).
  - vm_compute. discriminate.
  - vm_compute. reflexivity.
Defined.

(** ** Canonical keys: the run as one comparison *)

Lemma Forall2_eq_map {A B} (f : A → B) l k :
  Forall2 (λ x y, y = f x) l k → k = map f l.
Proof. induction 1; simpl; congruence. Qed.

Lemma filter_ext_elem {A} (P Q : A → Prop)
    `{!∀ x, Decision (P x), !∀ x, Decision (Q x)} (l : list A) :
  (∀ x, x ∈ l → P x ↔ Q x) → filter P l = filter Q l.
Proof.
  induction l as [|a l IH]; intros Hiff; [done|].
  rewrite !filter_cons.
  rewrite IH by (intros x Hx; apply Hiff; by right).
  apply decide_ext, Hiff. left.
Qed.

(** With canonical keys, the row a source row is compared with in its
    chunk is the row it would be compared with in the whole target. *)
Lemma last_with_key_subset src_df tgt_df pk_col chunk_size src_chunk
    tgt_chunk row :
  rectangular src_df → pk_col ∈ columns src_df →
  rectangular tgt_df → pk_col ∈ columns tgt_df →
  canonical_keys src_df tgt_df pk_col →
  src_chunk ∈ source_chunks src_df chunk_size →
  target_subset tgt_df src_chunk pk_col = Ok tgt_chunk →
  row ∈ rows src_chunk →
  last_with_key tgt_chunk pk_col (normalized_key (columns src_df) pk_col row)
  = last_with_key tgt_df pk_col (normalized_key (columns src_df) pk_col row).
Proof.
  intros Hs Hpks Ht Hpkt Hcanon Hchunk Hsub Hrow.
  destruct (source_chunks_elem _ _ _ Hchunk) as (Hcols & Hrect & Hrows).
  specialize (Hrect Hs).
  destruct (target_subset_Ok tgt_df src_chunk pk_col Ht Hpkt Hrect)
    as (tgt_chunk' & Hsub' & Htcols & Htrows); [by rewrite Hcols|].
  rewrite Hsub in Hsub'. injection Hsub' as <-.
  unfold last_with_key. rewrite Htcols, Htrows. f_equal.
  rewrite list_filter_filter. apply filter_ext_elem. intros t Hin.
  split; [by intros [? _]|]. intros Hkey. split; [done|].
  rewrite (Hcanon row t (Hrows row Hrow) Hin Hkey).
  unfold raw_keys. rewrite Hcols.
  by apply (list_elem_of_fmap_2 (λ r, cell (columns src_df) r pk_col)).
Qed.

(** X21. With canonical keys and distinct source columns, a run on
    rectangular tables returns what one chunk comparison of the whole source
    against the whole target returns: the same counters and the same diff
    records, up to their order. Chunking and the raw-key selection of target
    rows are then invisible. *)
Theorem run_is_one_comparison (host : Host) (source_blob target_blob : Csv)
    (pk_col : pystr) (timing : list nat) :
  Csv_rectangular source_blob → Csv_rectangular target_blob →
  pk_col ∈ header source_blob → pk_col ∈ header target_blob →
  NoDup (header source_blob) →
  canonical_keys (read_blob_to_df source_blob) (read_blob_to_df target_blob)
    pk_col →
  ∃ report res,
    process_parallel_blob host source_blob target_blob pk_col timing
    = Ok report
    ∧ compare_chunk (read_blob_to_df source_blob)
        (read_blob_to_df target_blob) pk_col = Ok res
    ∧ counters (totals report) = counters res
    ∧ diffs (totals report) ≡ₚ diffs res.
Proof.
  intros Hs Ht Hpks Hpkt Hnd Hcanon.
  pose proof (read_blob_to_df_rectangular _ Hs) as Hsr.
  pose proof (read_blob_to_df_rectangular _ Ht) as Htr.
  set (src_df := read_blob_to_df source_blob) in *.
  set (tgt_df := read_blob_to_df target_blob) in *.
  destruct (process_parallel_blob_rows host source_blob target_blob pk_col
              timing Hs Ht Hpks Hpkt)
    as (report & os & Hrun & Hos & _ & Hm & Hmi & Hmm & Hperm).
  fold src_df tgt_df in Hos.
  assert (os = map (expected_outcome src_df tgt_df pk_col) (rows src_df))
    as Hexp.
  { apply Forall2_eq_map.
    eapply run_outcomes_rows; [apply chunk_size_of_pos | exact Hos |].
    intros src_chunk tgt_chunk m row o Hchunk Hsub Hmap Hrow Ho.
    destruct (target_subset_rows _ _ _ _ _ _ Hsr Hpks Htr Hpkt Hchunk Hsub)
      as (Htcols & Htrect & _ & _).
    destruct (source_chunks_elem _ _ _ Hchunk) as (Hcols & Hrect & _).
    specialize (Hrect Hsr).
    rewrite (compare_row_expected src_chunk tgt_chunk pk_col m row) in Ho;
      [| done | by rewrite Htcols | by rewrite Hcols | by rewrite Hcols
       | done | by eapply Forall_forall in Hrect].
    injection Ho as <-. unfold expected_outcome.
    rewrite Hcols, Htcols.
    by rewrite (last_with_key_subset src_df tgt_df pk_col
                  (chunk_size_of host src_df) src_chunk tgt_chunk row). }
  exists report, (tally_all os). split; [done|]. split; [|split].
  - rewrite Hexp, compare_chunk_outcomes.
    by rewrite chunk_outcomes_expected.
  - unfold counters, tally_all.
    destruct (tally_outcomes no_result os) as (_ & -> & -> & -> & ->).
    destruct (process_parallel_blob_outcomes _ _ _ _ _ _ Hrun)
      as (os' & Hos' & _ & _ & _ & Hch & _).
    fold src_df tgt_df in Hos'. rewrite Hos in Hos'. injection Hos' as <-.
    simpl. by rewrite Hm, Hmi, Hmm, Hch.
  - unfold tally_all.
    destruct (tally_outcomes no_result os) as (-> & _). by simpl.
Qed.

Lemma run_is_one_comparison_witness :
  ∃ report res,
    process_parallel_blob host8 (csv "pk,a|1,X|2,Y|3,Z") (csv "pk,a|1,X|3,W")
      (py "pk") [] = Ok report
    ∧ compare_chunk (read_blob_to_df (csv "pk,a|1,X|2,Y|3,Z"))
        (read_blob_to_df (csv "pk,a|1,X|3,W")) (py "pk") = Ok res
    ∧ counters (totals report) = counters res
    ∧ diffs (totals report) ≡ₚ diffs res.
Proof.
  apply (run_is_one_comparison host8 (csv "pk,a|1,X|2,Y|3,Z")
           (csv "pk,a|1,X|3,W") (py "pk") []); try by_compute.
  intros row t Hrow Ht Hkey. vm_compute in Hrow, Ht.
  repeat (apply elem_of_cons in Hrow as [->|Hrow]);
    [| | |by apply elem_of_nil in Hrow];
    (repeat (apply elem_of_cons in Ht as [->|Ht]);
       [| |by apply elem_of_nil in Ht]);
    first [reflexivity | by vm_compute in Hkey].
Defined.

(** ** The summary text and the output blob *)

Lemma split_at_newline (a a' r r' : pystr) :
  10%N ∉ a → 10%N ∉ a' → a ++ 10%N :: r = a' ++ 10%N :: r' →
  a = a' ∧ r = r'.
Proof.
  revert a'. induction a as [|x a IH]; intros [|y a'] Ha Ha' Heq;
    simpl in Heq.
  - by injection Heq as ->.
  - injection Heq as <- _. destruct Ha'. left.
  - injection Heq as -> _. destruct Ha. left.
  - injection Heq as -> Heq.
    destruct (IH a') as [-> ->]; [| |done..].
    + intros Hin. apply Ha. by right.
    + intros Hin. apply Ha'. by right.
Qed.

Lemma summary_line_no_newline (label : pystr) n :
  10%N ∉ label → 10%N ∉ label ++ PyStr.of_Z n.
Proof.
  intros Hlabel [Hin|Hin%of_Z_chars]%elem_of_app; [done | lia].
Qed.

Lemma summary_injective (s t m mm s' t' m' mm' : Z) :
  join_lines (summary s t m mm) = join_lines (summary s' t' m' mm') →
  s = s' ∧ t = t' ∧ m = m' ∧ mm = mm'.
Proof.
  unfold summary. cbn [join_lines]. intros Heq.
  apply split_at_newline in Heq as [H1 Heq];
    [|apply summary_line_no_newline; by_compute..].
  apply split_at_newline in Heq as [H2 Heq];
    [|apply summary_line_no_newline; by_compute..].
  apply split_at_newline in Heq as [H3 H4];
    [|apply summary_line_no_newline; by_compute..].
  apply app_inv_head, of_Z_inj in H1, H2, H3, H4. done.
Qed.

Lemma report_content host source_blob target_blob pk_col timing report :
  process_parallel_blob host source_blob target_blob pk_col timing = Ok report →
  content report
  = join_lines (summary (total_source report) (total_target report)
                  (matched (totals report)) (mismatched (totals report))).
Proof.
  intros Hrun.
  destruct (process_parallel_blob_Ok_key _ _ _ _ _ _ Hrun) as [Hs Ht].
  rewrite process_parallel_blob_runs in Hrun by done.
  apply bind_Ok in Hrun as (fs & _ & Hrun).
  by apply bind_Ok in Hrun as (sums & _ & [= <-]).
Qed.

(** X22. The summary text of a report determines the four counts it shows:
    two reports with the same text have the same source and target row
    counts and the same matched and mismatched counts. (The missing count is
    not in the text.) *)
Theorem report_text_determines_counts
    (host1 host2 : Host) (source1 target1 source2 target2 : Csv)
    (pk1 pk2 : pystr) (timing1 timing2 : list nat) (report1 report2 : Report) :
  process_parallel_blob host1 source1 target1 pk1 timing1 = Ok report1 →
  process_parallel_blob host2 source2 target2 pk2 timing2 = Ok report2 →
  content report1 = content report2 →
  total_source report1 = total_source report2
  ∧ total_target report1 = total_target report2
  ∧ matched (totals report1) = matched (totals report2)
  ∧ mismatched (totals report1) = mismatched (totals report2).
Proof.
  intros H1%report_content H2%report_content Heq.
  rewrite H1, H2 in Heq. by apply summary_injective.
Qed.

Lemma report_text_determines_counts_witness :
  ∃ report1 report2,
    process_parallel_blob host8 (csv "pk,a|1,X|2,Y") (csv "pk,a|1,X|3,Z")
      (py "pk") [] = Ok report1
    ∧ process_parallel_blob host8 (csv "id,b|7,p|8,q") (csv "id,b|9,r|7,p")
        (py "id") [] = Ok report2
    ∧ matched (totals report1) = matched (totals report2).
Proof.
  eexists _, _. split; [vm_compute; reflexivity|].
  split; [vm_compute; reflexivity|].
  apply (report_text_determines_counts host8 host8
           (csv "pk,a|1,X|2,Y") (csv "pk,a|1,X|3,Z")
           (csv "id,b|7,p|8,q") (csv "id,b|9,r|7,p")
           (py "pk") (py "id") [] []);
    vm_compute; reflexivity.
Defined.

(** The name of the output blob determines the second it was built at. *)
Lemma output_blob_name_inj now1 now2 :
  output_blob_name now1 = output_blob_name now2 → now1 = now2.
Proof.
  unfold output_blob_name. intros Heq.
  apply app_inv_head, app_inv_tail in Heq. by apply of_Z_inj.
Qed.

(** X23. Two successful runs, the second on the container the first left:
    the second report is stored under the name the run returns; when the
    runs build their names in different seconds the names differ and the
    first report is still stored under its name, and in the same second the
    names coincide (the second report has replaced the first); no other blob
    of the container has changed. *)
Theorem consecutive_runs_store (container : gmap pystr pystr)
    (host1 host2 : Host) (source1 target1 source2 target2 : Csv)
    (pk1 pk2 : pystr) (timing1 timing2 : list nat) (now1 now2 : Z)
    (report1 report2 : Report) :
  process_parallel_blob host1 source1 target1 pk1 timing1 = Ok report1 →
  process_parallel_blob host2 source2 target2 pk2 timing2 = Ok report2 →
  ∃ container1 container2 name1 name2,
    process_and_store container host1 source1 target1 pk1 timing1 now1
    = (container1, Ok name1)
    ∧ process_and_store container1 host2 source2 target2 pk2 timing2 now2
      = (container2, Ok name2)
    ∧ container2 !! name2 = Some (content report2)
    ∧ (now1 ≠ now2 →
       name1 ≠ name2 ∧ container2 !! name1 = Some (content report1))
    ∧ (now1 = now2 → name1 = name2)
    ∧ ∀ name, name ≠ name1 → name ≠ name2 →
              container2 !! name = container !! name.
Proof.
  intros H1 H2. unfold process_and_store, write_results_to_blob.
  rewrite H1, H2. do 4 eexists. split; [done|]. split; [done|].
  split; [apply lookup_insert_eq|]. split; [|split].
  - intros Hne.
    assert (output_blob_name now1 ≠ output_blob_name now2) as Hnames.
    { intros Heq. by apply output_blob_name_inj in Heq. }
    split; [done|]. rewrite lookup_insert_ne by done. apply lookup_insert_eq.
  - by intros ->.
  - intros name Hn1 Hn2. by rewrite !lookup_insert_ne.
Qed.

Lemma consecutive_runs_store_witness :
  ∃ container2,
    (process_and_store
       (process_and_store ∅ host8 (csv "pk,a|1,X|2,Y") (csv "pk,a|1,X|3,Z")
          (py "pk") [] 1700000000).1
       host8 (csv "pk,a|1,X") (csv "pk,a|1,Y") (py "pk") [] 1700000060).1
    = container2
    ∧ container2 !! py "output/diff_result_1700000000.txt"
      = Some (py "Source count : 2" ++ [10%N] ++ py "Target count : 2"
              ++ [10%N] ++ py "Matched count : 1" ++ [10%N]
              ++ py "Mismatched count : 0").
Proof.
  destruct (consecutive_runs_store ∅ host8 host8
              (csv "pk,a|1,X|2,Y") (csv "pk,a|1,X|3,Z")
              (csv "pk,a|1,X") (csv "pk,a|1,Y") (py "pk") (py "pk") [] []
              1700000000 1700000060 _ _ eq_refl eq_refl)
    as (c1 & c2 & n1 & n2 & E1 & E2 & _ & Hkeep & _).
  exists c2. rewrite E1. simpl. rewrite E2. simpl. split; [done|].
  injection E1 as _ <-.
  by apply Hkeep.
Defined.
